(** * display-graph: the CSV-to-graph pipeline of [src/App.js]

    A shallow embedding of the logic of the [App] component:
    - [processCSVData]  (App.js 22-74): rows to nodes, edges and colours;
    - [handleVisualize] (App.js 76-134): the load, as a transition on the
      component state;
    - [filteredGraphData] (App.js 136-157): the view derived from the full
      graph and the visibility selection;
    - [toggleExperimentVisibility] (App.js 159-164) and the conditions under
      which the page shows its boxes (App.js 222-304).

    Modelling conventions.
    - A JavaScript string is the [string] of its UTF-8 bytes; the characters
      the code inspects, [":"] and the suffix [".csv"], are single bytes,
      and [length] is counted in UTF-16 code units by [js_length].
    - A value is [undefined], a string, a boolean or a member of
      [Object.prototype] ([JsValue]). A plain object used as a dictionary
      (a parsed row, [colorMap], [visibleExperiments]) is a [gmap] over its
      own properties; reading a key goes through the prototype chain
      ([js_get]), assigning one goes through the [__proto__] setter
      ([js_set]).
    - The text of a built-in function is left to the engine: it is the
      word [function] followed by a text the [Engine] fixes.
    - A row of an error-free parse holds its fields as own, string-valued
      properties.
    - A JavaScript [Set] iterates in insertion order: it is a
      duplicate-free list, [add] appending at the end.
    - React state is one record, every [setX] a functional update of it.
      The updates one callback makes are rendered together (React batches
      them), so the page is rendered in the states between callbacks: the
      one a click on Visualize leaves while the fetch is awaited
      ([pending]) and the one a settled load or a toggle leaves. *)

From Stdlib Require Import String Ascii.
From stdpp Require Import base list strings gmap.

Open Scope string_scope.
Open Scope list_scope.
Open Scope stdpp_scope.

(** ** JavaScript values and plain objects *)

(** The properties every plain object inherits from [Object.prototype]:
    eleven built-in functions and the accessor [__proto__]. *)
Definition object_prototype_members : list string :=
  ["constructor"; "__defineGetter__"; "__defineSetter__"; "hasOwnProperty";
   "__lookupGetter__"; "__lookupSetter__"; "isPrototypeOf";
   "propertyIsEnumerable"; "toString"; "valueOf"; "__proto__";
   "toLocaleString"].

(** The values the code handles. [JsMember name] is what [({})[name]]
    evaluates to for a name of [object_prototype_members]: the built-in
    function of that name, or the prototype object itself for
    [__proto__]. *)
Inductive JsValue :=
  | JsUndefined
  | JsString (s : string)
  | JsBool (b : bool)
  | JsMember (name : string).

#[global] Instance JsValue_eq_dec : EqDecision JsValue.
Proof. solve_decision. Defined.

(** What the engine prints after the word [function] for the built-in
    function of a given name. *)
Class Engine := { native_text : string → string }.

(** Truthiness. *)
Definition js_truthy (v : JsValue) : bool :=
  match v with
  | JsUndefined => false
  | JsString s => if decide (s = "") then false else true
  | JsBool b => b
  | JsMember _ => true
  end.

(** [!v]. *)
Definition js_not (v : JsValue) : bool := negb (js_truthy v).

(** [v || d]. *)
Definition js_or (v d : JsValue) : JsValue :=
  if js_truthy v then v else d.

(** [o[k]] for a plain object with own properties [o], whose values [inj]
    turns into [JsValue]s: the own property, else the inherited member,
    else [undefined]. *)
Definition js_get {A} (inj : A → JsValue) (o : gmap string A) (k : string)
    : JsValue :=
  match o !! k with
  | Some a => inj a
  | None => if bool_decide (k ∈ object_prototype_members)
            then JsMember k else JsUndefined
  end.

(** [o[k] = a] for a primitive [a]: an own property is written, except
    that the key [__proto__], when not own, reaches the setter of
    [Object.prototype], which ignores a primitive. *)
Definition js_set {A} (k : string) (a : A) (o : gmap string A) : gmap string A :=
  if decide (k = "__proto__" ∧ o !! k = None) then o else <[k := a]> o.

(** The number of UTF-16 code units of a string given by its UTF-8 bytes:
    a continuation byte adds none, the lead byte of a four-byte sequence
    two, any other byte one. *)
Definition utf16_units (c : ascii) : nat :=
  if (nat_of_ascii c <? 128)%nat then 1
  else if (nat_of_ascii c <? 192)%nat then 0
  else if (nat_of_ascii c <? 240)%nat then 1
  else 2.

(** [s.length]. *)
Fixpoint js_length (s : string) : nat :=
  match s with
  | EmptyString => 0
  | String c rest => utf16_units c + js_length rest
  end.

(** [s.endsWith(suffix)]. *)
Definition endsWith (s suffix : string) : bool :=
  if decide (String.length suffix ≤ String.length s)%nat
  then String.eqb
         (substring (String.length s - String.length suffix)
                    (String.length suffix) s) suffix
  else false.

(** [s.split(":")]: the pieces between the separators, never an empty array. *)
Fixpoint split_colon (s : string) : list string :=
  match s with
  | EmptyString => [""]
  | String c rest =>
      if decide (c = ":"%char) then "" :: split_colon rest
      else match split_colon rest with
           | piece :: pieces => String c piece :: pieces
           | [] => [String c ""]
           end
  end.

(** [parts.join(":")]. *)
Fixpoint join_colon (parts : list string) : string :=
  match parts with
  | [] => ""
  | [p] => p
  | p :: ps => p +:+ ":" +:+ join_colon ps
  end.

(** A [Set] in insertion order; its elements are compared as [Set] does,
    strings by their text and objects by identity. *)
Module JsSet.
Definition t (A : Type) := list A.
Definition empty {A} : t A := [].
Definition add {A} `{EqDecision A} (x : A) (s : t A) : t A :=
  if decide (x ∈ s) then s else s ++ [x].
Definition has {A} `{EqDecision A} (s : t A) (x : A) : bool :=
  bool_decide (x ∈ s).
(** [Array.from(s)]. *)
Definition to_array {A} (s : t A) : list A := s.
End JsSet.

(** ** Data model *)

(** The five configurable header names (App.js 11-15). *)
Record HeaderConfig := {
  modelHeader : string;
  fromNodeHeader : string;
  relationshipHeader : string;
  toNodeHeader : string;
  experimentHeader : string
}.

Definition defaultHeaders : HeaderConfig :=
  {| modelHeader := "model"; fromNodeHeader := "from_node";
     relationshipHeader := "relationship"; toNodeHeader := "to_node";
     experimentHeader := "experiment" |}.

(** A parsed row: its own properties, header name to field text. *)
Abbreviation Row := (gmap string string).

(** The object pushed on [allExtractedEdges] (App.js 47-52). [relationship]
    and [experiment] hold what the row lookups gave. *)
Module Extracted.
Record t := mk {
  source : string;
  target : string;
  relationship : JsValue;
  experiment : JsValue
}.
End Extracted.

(** A node of the graph (App.js 65-69). *)
Module Node.
Record t := mk {
  id : string;
  label : string;
  model : string
}.
End Node.

(** An edge of the full graph (App.js 116-123). [label] and [experiment]
    copy the extracted edge, [color] is what the lookup in the colour map
    gave. *)
Module Edge.
Record t := mk {
  id : string;
  source : string;
  target : string;
  label : JsValue;
  color : JsValue;
  experiment : JsValue
}.
End Edge.

(** What [processCSVData] returns (App.js 60-73). *)
Module Processed.
Record t := mk {
  nodes : list Node.t;
  edges : list Extracted.t;
  experimentColorMap : gmap string string
}.
End Processed.

(** The [fullGraphData] state. *)
Module Graph.
Record t := mk {
  nodes : list Node.t;
  edges : list Edge.t
}.
Definition empty : t := {| nodes := []; edges := [] |}.
End Graph.

(** What [filteredGraphData] holds. *)
Module View.
Record t := mk {
  nodes : list Node.t;
  links : list Edge.t
}.
End View.

(** The palette (App.js 7). *)
Definition colors : list string :=
  ["#FF6B6B"; "#4ECDC4"; "#45B7D1"; "#96CEB4";
   "#FFEEAD"; "#FF9999"; "#77DD77"; "#AEC6CF"].

(** [colors[i]]; the only call site reduces [i] modulo the length. *)
Definition colors_at (i : nat) : string := nth i colors "".

(** The three accumulators of the row loop (App.js 23-25). *)
Record Acc := {
  overallNodeSet : JsSet.t string;
  allExtractedEdges : list Extracted.t;
  experiments : JsSet.t JsValue
}.

Definition acc0 : Acc :=
  {| overallNodeSet := JsSet.empty; allExtractedEdges := [];
     experiments := JsSet.empty |}.

(** The state the pipeline reads and writes (App.js 17-20). *)
Record State := {
  fullGraphData : Graph.t;
  isLoading : bool;
  experimentColors : gmap string string;
  visibleExperiments : gmap string bool
}.

(** The initial [useState] values. *)
Definition initialState : State :=
  {| fullGraphData := Graph.empty; isLoading := false;
     experimentColors := ∅; visibleExperiments := ∅ |}.

Definition setFullGraphData (g : Graph.t) (st : State) : State :=
  {| fullGraphData := g; isLoading := isLoading st;
     experimentColors := experimentColors st;
     visibleExperiments := visibleExperiments st |}.

Definition setIsLoading (b : bool) (st : State) : State :=
  {| fullGraphData := fullGraphData st; isLoading := b;
     experimentColors := experimentColors st;
     visibleExperiments := visibleExperiments st |}.

Definition setExperimentColors (m : gmap string string) (st : State) : State :=
  {| fullGraphData := fullGraphData st; isLoading := isLoading st;
     experimentColors := m;
     visibleExperiments := visibleExperiments st |}.

Definition setVisibleExperiments (m : gmap string bool) (st : State) : State :=
  {| fullGraphData := fullGraphData st; isLoading := isLoading st;
     experimentColors := experimentColors st;
     visibleExperiments := m |}.

(** What [Papa.parse] hands to [complete]: [results.errors], [results.data]. *)
Record ParseResults := {
  errors : list string;
  data : list Row
}.

(** The two [alert] calls of [handleVisualize]. *)
Inductive Alert := AlertInvalidUrl | AlertCsvError.

(** The node constructor (App.js 61-70). [parts[0]] of the never-empty
    [split] result is its head. *)
Definition make_node (nodeId : string) : Node.t :=
  let parts := split_colon nodeId in
  let model := hd "" parts in
  let node_name := join_colon (tl parts) in
  {| Node.id := nodeId; Node.label := node_name; Node.model := model |}.

(** [Object.keys(colorMap).forEach(exp => initialVisibility[exp] = true)]
    (App.js 106-109). *)
Definition initialVisibility (colorMap : gmap string string) : gmap string bool :=
  foldl (λ vis exp, js_set exp true vis) ∅ (map_to_list colorMap).*1.

(** [toggleExperimentVisibility] (App.js 159-164): the spread copies the
    own properties and the computed key defines an own property. *)
Definition toggleExperimentVisibility (experiment : string)
    (prev : gmap string bool) : gmap string bool :=
  <[experiment := js_not (js_get JsBool prev experiment)]> prev.

Section Model.
Context {engine : Engine}.

(** [`${v}`], which is also the property key [o[v]] uses. *)
Definition js_text (v : JsValue) : string :=
  match v with
  | JsUndefined => "undefined"
  | JsString s => s
  | JsBool b => if b then "true" else "false"
  | JsMember name =>
      if decide (name = "__proto__") then "[object Object]"
      else "function" +:+ native_text name
  end.

(** ** processCSVData *)

(** The body of [csvData.forEach(row => ...)] (App.js 27-53). *)
Definition row_step (h : HeaderConfig) (acc : Acc) (row : Row) : Acc :=
  let fromNode := js_get JsString row (fromNodeHeader h) in
  let toNode := js_get JsString row (toNodeHeader h) in
  let model := js_get JsString row (modelHeader h) in
  let experiment :=
    js_or (js_get JsString row (experimentHeader h)) (JsString "undefined") in
  let relationship := js_get JsString row (relationshipHeader h) in
  if js_not fromNode || js_not toNode || js_not model || js_not relationship
  then acc
  else
    let sourceId := js_text model +:+ ":" +:+ js_text fromNode in
    let targetId := js_text model +:+ ":" +:+ js_text toNode in
    {| overallNodeSet :=
         JsSet.add targetId (JsSet.add sourceId (overallNodeSet acc));
       allExtractedEdges :=
         allExtractedEdges acc ++
         [{| Extracted.source := sourceId;
             Extracted.target := targetId;
             Extracted.relationship := relationship;
             Extracted.experiment := experiment |}];
       experiments := JsSet.add experiment (experiments acc) |}.

(** The colour loop (App.js 55-58): [colorMap[exp] = colors[index % 8]]. *)
Definition build_colorMap (exps : list JsValue) : gmap string string :=
  foldl (λ colorMap '(index, exp),
           js_set (js_text exp) (colors_at (index mod length colors)) colorMap)
        ∅ (imap pair exps).

Definition processCSVData (h : HeaderConfig) (csvData : list Row) : Processed.t :=
  let acc := foldl (row_step h) acc0 csvData in
  let colorMap := build_colorMap (JsSet.to_array (experiments acc)) in
  {| Processed.nodes := make_node <$> JsSet.to_array (overallNodeSet acc);
     Processed.edges := allExtractedEdges acc;
     Processed.experimentColorMap := colorMap |}.

(** ** handleVisualize *)

Section Load.
(** The collaborators of a load: [fetch(url)] followed by
    [response.text()], [None] when either promise rejects; the CSV parser;
    and the identifier the [k]-th call of [uuidv4] in this load returns. *)
Variable fetch_text : string → option string.
Variable papa_parse : string → ParseResults.
Variable uuidv4 : nat → string.

(** The edge constructor of App.js 116-123. *)
Definition make_edge (colorMap : gmap string string)
    (k : nat) (edge : Extracted.t) : Edge.t :=
  {| Edge.id := "e-" +:+ uuidv4 k;
     Edge.source := Extracted.source edge;
     Edge.target := Extracted.target edge;
     Edge.label := Extracted.relationship edge;
     Edge.color := js_get JsString colorMap (js_text (Extracted.experiment edge));
     Edge.experiment := Extracted.experiment edge |}.

(** The [complete] callback after the error check (App.js 103-127). *)
Definition complete_ok (h : HeaderConfig) (rows : list Row) (st : State) : State :=
  let processedData := processCSVData h rows in
  let colorMap := Processed.experimentColorMap processedData in
  let st := setVisibleExperiments (initialVisibility colorMap) st in
  let st := setExperimentColors colorMap st in
  let st := setFullGraphData
              {| Graph.nodes := Processed.nodes processedData;
                 Graph.edges := imap (make_edge colorMap)
                                     (Processed.edges processedData) |} st in
  setIsLoading false st.

(** [handleVisualize] (App.js 76-134): the state once the load has
    settled, and the alerts it raised. *)
Definition handleVisualize (h : HeaderConfig) (url : string) (st : State)
    : State * list Alert :=
  if js_not (JsString url) || negb (endsWith url ".csv")
  then (st, [AlertInvalidUrl])
  else
    let st := setIsLoading true st in
    let st := setFullGraphData Graph.empty st in
    let st := setVisibleExperiments ∅ st in
    let st := setExperimentColors ∅ st in
    match fetch_text url with
    | None => (setIsLoading false st, [])
    | Some csvText =>
        let results := papa_parse csvText in
        if bool_decide (0 < length (errors results))%nat
        then (setIsLoading false st, [AlertCsvError])
        else (complete_ok h (data results) st, [])
    end.
End Load.

(** ** filteredGraphData *)

(** The [useMemo] body (App.js 136-157). *)
Definition filteredGraphData (fullGraphData : Graph.t)
    (visibleExperiments : gmap string bool) : View.t :=
  if bool_decide (length (Graph.nodes fullGraphData) = 0%nat)
  then {| View.nodes := []; View.links := [] |}
  else
    let visibleEdges :=
      filter (λ edge, js_get JsBool visibleExperiments
                        (js_text (Edge.experiment edge)) = JsBool true)
             (Graph.edges fullGraphData) in
    let visibleNodeIds :=
      foldl (λ ids edge, JsSet.add (Edge.target edge)
                           (JsSet.add (Edge.source edge) ids))
            JsSet.empty visibleEdges in
    let visibleNodes :=
      filter (λ node, JsSet.has visibleNodeIds (Node.id node) = true)
             (Graph.nodes fullGraphData) in
    {| View.nodes := visibleNodes; View.links := visibleEdges |}.

(** ** Derived definitions used in the statements *)

(** The loop body of [processCSVData] in two halves, [row_step h acc row]
    being [push acc c] when [candidate h row] is [Some c] and [acc]
    otherwise (lemma [row_step_candidate]): the candidate an accepted row
    pushes, [None] for a row the guard of App.js 34 skips. *)
Definition candidate (h : HeaderConfig) (row : Row) : option Extracted.t :=
  if js_not (js_get JsString row (fromNodeHeader h))
     || js_not (js_get JsString row (toNodeHeader h))
     || js_not (js_get JsString row (modelHeader h))
     || js_not (js_get JsString row (relationshipHeader h))
  then None
  else Some
    {| Extracted.source :=
         js_text (js_get JsString row (modelHeader h)) +:+ ":" +:+
         js_text (js_get JsString row (fromNodeHeader h));
       Extracted.target :=
         js_text (js_get JsString row (modelHeader h)) +:+ ":" +:+
         js_text (js_get JsString row (toNodeHeader h));
       Extracted.relationship := js_get JsString row (relationshipHeader h);
       Extracted.experiment :=
         js_or (js_get JsString row (experimentHeader h)) (JsString "undefined") |}.

(** What the loop body does with a candidate (App.js 42-52). *)
Definition push (acc : Acc) (c : Extracted.t) : Acc :=
  {| overallNodeSet :=
       JsSet.add (Extracted.target c)
                 (JsSet.add (Extracted.source c) (overallNodeSet acc));
     allExtractedEdges := allExtractedEdges acc ++ [c];
     experiments := JsSet.add (Extracted.experiment c) (experiments acc) |}.

(** A field that is missing from the row or present with empty text. *)
Definition missing_or_empty (v : option string) : Prop :=
  v = None ∨ v = Some "".

(** The experiment tag read from a field: the field's text, or the literal
    ["undefined"] when the field is missing or empty. *)
Definition tag_of (v : option string) (tag : string) : Prop :=
  (missing_or_empty v ∧ tag = "undefined") ∨ (v = Some tag ∧ tag ≠ "").

(** None of the five header names is the name of a member of
    [Object.prototype]. *)
Definition plain_headers (h : HeaderConfig) : Prop :=
  (modelHeader h ∉ object_prototype_members) ∧
  (fromNodeHeader h ∉ object_prototype_members) ∧
  (toNodeHeader h ∉ object_prototype_members) ∧
  (relationshipHeader h ∉ object_prototype_members) ∧
  (experimentHeader h ∉ object_prototype_members).

(** Every edge of the graph names two nodes of the graph. *)
Definition closed_graph (g : Graph.t) : Prop :=
  Forall (λ e, Edge.source e ∈ Node.id <$> Graph.nodes g ∧
               Edge.target e ∈ Node.id <$> Graph.nodes g)
         (Graph.edges g).

(** The specification's reading of a node id, to compare [make_node]
    with: whether the separator occurs, what stands before its first
    occurrence, and what stands after it. *)

(** Whether the separator occurs in a string. *)
Fixpoint has_colon (s : string) : bool :=
  match s with
  | EmptyString => false
  | String c rest => if decide (c = ":"%char) then true else has_colon rest
  end.

(** The portion of a string strictly before its first [":"]. *)
Fixpoint before_first_colon (s : string) : string :=
  match s with
  | EmptyString => ""
  | String c rest =>
      if decide (c = ":"%char) then "" else String c (before_first_colon rest)
  end.

(** The whole remainder of a string after its first [":"]. *)
Fixpoint after_first_colon (s : string) : string :=
  match s with
  | EmptyString => ""
  | String c rest =>
      if decide (c = ":"%char) then rest else after_first_colon rest
  end.

(** The view's link test (App.js 142) in terms of own properties: the
    selection holds exactly [true] under the key of the edge's experiment
    (lemma [js_get_strict_true]). *)
Definition selected (visibleExperiments : gmap string bool) (e : Edge.t) : Prop :=
  visibleExperiments !! js_text (Edge.experiment e) = Some true.

#[global] Instance selected_dec sel e : Decision (selected sel e) :=
  decide (sel !! js_text (Edge.experiment e) = Some true).

(** An edge that starts or ends at a node. *)
Definition incident (n : Node.t) (e : Edge.t) : Prop :=
  Edge.source e = Node.id n ∨ Edge.target e = Node.id n.

#[global] Instance incident_dec n e : Decision (incident n e) :=
  decide (Edge.source e = Node.id n ∨ Edge.target e = Node.id n).

(** The experiment tags of the accepted rows, in row order. *)
Definition tags_of (h : HeaderConfig) (rows : list Row) : list JsValue :=
  Extracted.experiment <$> Processed.edges (processCSVData h rows).

(** How many distinct tags occur among the first [j] of a list. *)
Definition distinct_before (j : nat) (tags : list string) : nat :=
  size (list_to_set (take j tags) : gset string).

(** The text [t] is the tag of the [j]-th accepted row and of none before
    it, and is not the key [__proto__]. *)
Definition first_seen (h : HeaderConfig) (rows : list Row)
    (j : nat) (t : string) : Prop :=
  tags_of h rows !! j = Some (JsString t) ∧
  (JsString t ∉ take j (tags_of h rows)) ∧
  t ≠ "__proto__".

(** The source check of App.js 77 passes: the load starts. *)
Definition valid_source (url : string) : Prop :=
  js_not (JsString url) || negb (endsWith url ".csv") = false.

(** A load-level failure: the fetch rejects, or the parser reports errors. *)
Definition load_fails (fetch_text : string → option string)
    (papa_parse : string → ParseResults) (url : string) : Prop :=
  fetch_text url = None ∨
  ∃ csvText, fetch_text url = Some csvText ∧ errors (papa_parse csvText) ≠ [].

(** The state React renders while the fetch is awaited: the four updates
    of App.js 82-85 applied to the state the click found. *)
Definition pending (st : State) : State :=
  setExperimentColors ∅
    (setVisibleExperiments ∅
       (setFullGraphData Graph.empty (setIsLoading true st))).

(** The states the component can be in: the initial one, the state a
    started load renders while it waits, and those that a settled load or a
    toggle produces from a reachable one. *)
Inductive reachable : State → Prop :=
  | reachable_initial : reachable initialState
  | reachable_pending url st :
      reachable st → valid_source url → reachable (pending st)
  | reachable_load fetch_text papa_parse uuidv4 h url st :
      reachable st →
      reachable (handleVisualize fetch_text papa_parse uuidv4 h url st).1
  | reachable_toggle experiment st :
      reachable st →
      reachable (setVisibleExperiments
                   (toggleExperimentVisibility experiment (visibleExperiments st))
                   st).

(** ** The rendered page *)

(** [{isLoading && <LinearProgress />}] (App.js 222). *)
Definition showsProgress (st : State) : bool := isLoading st.

(** [Object.keys(experimentColors).length > 0] (App.js 225): the legend. *)
Definition showsLegend (st : State) : bool :=
  bool_decide (0 < length (map_to_list (experimentColors st)).*1)%nat.

(** The "All nodes are filtered out" box (App.js 262). *)
Definition showsFilteredOut (st : State) : bool :=
  bool_decide
    (length (View.nodes (filteredGraphData (fullGraphData st)
                                           (visibleExperiments st))) = 0%nat)
  && negb (isLoading st)
  && bool_decide (0 < length (Graph.nodes (fullGraphData st)))%nat.

(** The "Please click Visualize" box (App.js 268). *)
Definition showsPrompt (st : State) : bool :=
  bool_decide (length (Graph.nodes (fullGraphData st)) = 0%nat)
  && negb (isLoading st).

(** The graph canvas (App.js 274). *)
Definition showsGraph (st : State) : bool :=
  bool_decide
    (0 < length (View.nodes (filteredGraphData (fullGraphData st)
                                               (visibleExperiments st))))%nat.

(** [nodeColor] (App.js 288): [colors[node.model?.length % colors.length]];
    [None] is [undefined]. *)
Definition nodeColor (node : Node.t) : option string :=
  colors !! (js_length (Node.model node) mod length colors).

(** [nodeLabel] (App.js 298). *)
Definition nodeLabel (node : Node.t) : string :=
  Node.model node +:+ ": " +:+ Node.label node.

(** The text of a legend chip (App.js 233): [exp || 'undefined']. *)
Definition chipLabel (exp : string) : string :=
  if js_truthy (JsString exp) then exp else "undefined".

(** The states the page reaches when the legend is the only way to toggle:
    a chip exists for the keys of [experimentColors] only (App.js 228-236). *)
Inductive ui_reachable : State → Prop :=
  | ui_initial : ui_reachable initialState
  | ui_pending url st :
      ui_reachable st → valid_source url → ui_reachable (pending st)
  | ui_load fetch_text papa_parse uuidv4 h url st :
      ui_reachable st →
      ui_reachable (handleVisualize fetch_text papa_parse uuidv4 h url st).1
  | ui_toggle experiment st :
      ui_reachable st →
      is_Some (experimentColors st !! experiment) →
      ui_reachable (setVisibleExperiments
                      (toggleExperimentVisibility experiment (visibleExperiments st))
                      st).

(** The view, read as a graph again. *)
Definition view_graph (v : View.t) : Graph.t :=
  {| Graph.nodes := View.nodes v; Graph.edges := View.links v |}.

(** The empty result of the builder. *)
Definition empty_processed : Processed.t :=
  {| Processed.nodes := []; Processed.edges := [];
     Processed.experimentColorMap := ∅ |}.

(** A row passes the guard of App.js 34. *)
Definition accepted (h : HeaderConfig) (row : Row) : Prop :=
  js_not (js_get JsString row (fromNodeHeader h))
  || js_not (js_get JsString row (toNodeHeader h))
  || js_not (js_get JsString row (modelHeader h))
  || js_not (js_get JsString row (relationshipHeader h))
  = false.

#[global] Instance accepted_dec h row : Decision (accepted h row) :=
  decide (js_not (js_get JsString row (fromNodeHeader h))
          || js_not (js_get JsString row (toNodeHeader h))
          || js_not (js_get JsString row (modelHeader h))
          || js_not (js_get JsString row (relationshipHeader h))
          = false).

(** What every state of the page satisfies: the graph is closed, its node
    ids are distinct, none of its nodes is isolated, the selection and the
    colour map have the same keys, these keys are the keys of the
    experiments of the edges other than [__proto__], every edge carries
    what the colour map gives for its experiment, and while the loading
    flag is on the graph and both maps are empty. *)
Definition consistent (st : State) : Prop :=
  closed_graph (fullGraphData st) ∧
  NoDup (Node.id <$> Graph.nodes (fullGraphData st)) ∧
  Forall (λ n, Exists (incident n) (Graph.edges (fullGraphData st)))
         (Graph.nodes (fullGraphData st)) ∧
  (∀ k, is_Some (visibleExperiments st !! k) ↔
        is_Some (experimentColors st !! k)) ∧
  (∀ k, is_Some (experimentColors st !! k) ↔
        k ≠ "__proto__" ∧
        ∃ e, e ∈ Graph.edges (fullGraphData st) ∧
             js_text (Edge.experiment e) = k) ∧
  Forall (λ e, Edge.color e =
               js_get JsString (experimentColors st)
                      (js_text (Edge.experiment e)))
         (Graph.edges (fullGraphData st)) ∧
  (isLoading st = true →
   fullGraphData st = Graph.empty ∧ experimentColors st = ∅ ∧
   visibleExperiments st = ∅).
End Model.

(** ** Data for the examples *)

(** The texts V8 prints for the built-in functions of [Object.prototype]:
    [constructor] is the function [Object]. *)
Definition v8 : Engine :=
  {| native_text name :=
       " " +:+ (if decide (name = "constructor") then "Object" else name)
       +:+ "() { [native code] }" |}.

(** A row with the five default headers. *)
Definition row5 (m f r t e : string) : Row :=
  list_to_map [("model", m); ("from_node", f); ("relationship", r);
               ("to_node", t); ("experiment", e)].

(** A row that lacks its [to_node] field. *)
Definition row_without_to_node : Row :=
  list_to_map [("model", "m1"); ("from_node", "a"); ("relationship", "r1");
               ("experiment", "e1")].

(** A graph with two experiments on disjoint edges, and three selections. *)
Definition graph_e1_e2 : Graph.t :=
  {| Graph.nodes := [Node.mk "m1:a" "a" "m1"; Node.mk "m1:b" "b" "m1";
                     Node.mk "m1:c" "c" "m1"; Node.mk "m1:d" "d" "m1"];
     Graph.edges :=
       [Edge.mk "e-1" "m1:a" "m1:b" (JsString "r1") (JsString "#FF6B6B")
                (JsString "e1");
        Edge.mk "e-2" "m1:c" "m1:d" (JsString "r2") (JsString "#4ECDC4")
                (JsString "e2")] |}.

Definition only_e1 : gmap string bool := {[ "e1" := true; "e2" := false ]}.
Definition e1_and_e2 : gmap string bool := {[ "e1" := true; "e2" := true ]}.

(** Four rows over three experiments, the last with an empty tag. *)
Definition rows_three_tags : list Row :=
  [row5 "m1" "a" "r1" "b" "e1"; row5 "m1" "b" "r2" "c" "e2";
   row5 "m1" "a" "r3" "c" "e1"; row5 "m2" "x" "r4" "y" ""].

(** Identifiers for the examples. *)
Definition uuid_demo (k : nat) : string :=
  String (ascii_of_nat (48 + k)) "".

(** Collaborators for the examples: a network that is down, a server that
    answers, a parser that reports an error and one that reports none. *)
Definition fetch_down (url : string) : option string := None.
Definition fetch_ok (url : string) : option string := Some "model;from_node".
Definition parse_broken (csvText : string) : ParseResults :=
  {| errors := ["TooFewFields"]; data := [] |}.
Definition parse_clean (csvText : string) : ParseResults :=
  {| errors := []; data := rows_three_tags |}.

(** The state after a first, successful load of [rows_three_tags]. *)
Definition loaded_demo : State :=
  complete_ok (engine := v8) uuid_demo defaultHeaders rows_three_tags
              initialState.

Definition demo_url : string := "https://example.org/graph.csv".

(** Nine rows, each with an experiment of its own. *)
Definition rows_nine_tags : list Row :=
  (λ e, row5 "m" "a" "r" "b" e) <$>
  ["e1"; "e2"; "e3"; "e4"; "e5"; "e6"; "e7"; "e8"; "e9"].

(** An identifier source that never repeats: [k] strokes for the [k]-th
    call. *)
Fixpoint uuid_tally (k : nat) : string :=
  match k with
  | O => ""
  | S k' => String "i" (uuid_tally k')
  end.

(** A header configuration that reads the model from a column named
    [constructor], and a row of a file that has no such column. *)
Definition headers_constructor : HeaderConfig :=
  {| modelHeader := "constructor"; fromNodeHeader := "from_node";
     relationshipHeader := "relationship"; toNodeHeader := "to_node";
     experimentHeader := "experiment" |}.

Definition row_without_model : Row :=
  list_to_map [("from_node", "a"); ("relationship", "r1"); ("to_node", "b");
               ("experiment", "e1")].

(** A row whose experiment cell is the text [__proto__]. *)
Definition row_proto_tag : Row := row5 "m1" "a" "r1" "b" "__proto__".

Section Proofs.
Context {engine : Engine}.

(** ** JavaScript values *)

Lemma js_get_own {A} (inj : A → JsValue) (o : gmap string A) k a :
  o !! k = Some a → js_get inj o k = inj a.
Proof. intros Hk. unfold js_get. by rewrite Hk. Qed.

Lemma js_get_plain {A} (inj : A → JsValue) (o : gmap string A) k :
  o !! k = None → k ∉ object_prototype_members → js_get inj o k = JsUndefined.
Proof.
  intros Hk Hplain. unfold js_get. rewrite Hk.
  by rewrite bool_decide_eq_false_2.
Qed.

Lemma js_get_inherited {A} (inj : A → JsValue) (o : gmap string A) k :
  o !! k = None → k ∈ object_prototype_members → js_get inj o k = JsMember k.
Proof.
  intros Hk Hmember. unfold js_get. rewrite Hk.
  by rewrite bool_decide_eq_true_2.
Qed.

(** [o[k] === true] is a test on the own properties: nothing inherited is
    the boolean [true]. *)
Lemma js_get_strict_true (o : gmap string bool) k :
  js_get JsBool o k = JsBool true ↔ o !! k = Some true.
Proof.
  unfold js_get. destruct (o !! k) as [b|].
  - split; [by intros [= ->] | by intros [= ->]].
  - case_bool_decide; split; done.
Qed.

Lemma js_set_lookup {A} k (a : A) (o : gmap string A) k' :
  o !! "__proto__" = None →
  js_set k a o !! k' =
  if decide (k = k' ∧ k ≠ "__proto__") then Some a else o !! k'.
Proof.
  intros Hproto. unfold js_set.
  destruct (decide (k = "__proto__")) as [-> | Hk].
  - rewrite decide_True by done. rewrite decide_False by (by intros [_ ?]).
    reflexivity.
  - rewrite decide_False by (by intros [? _]).
    destruct (decide (k = k')) as [-> | Hne].
    + rewrite decide_True by done. apply lookup_insert_eq.
    + rewrite decide_False by (by intros [? _]). by apply lookup_insert_ne.
Qed.

Lemma js_set_no_proto {A} k (a : A) (o : gmap string A) :
  o !! "__proto__" = None → js_set k a o !! "__proto__" = None.
Proof.
  intros Hproto. rewrite js_set_lookup by assumption.
  rewrite decide_False; [assumption |]. intros [-> Hne]. done.
Qed.

Lemma js_text_string s : js_text (JsString s) = s.
Proof. reflexivity. Qed.

Lemma js_text_member_nonempty name : js_text (JsMember name) ≠ "".
Proof. cbn. by case_decide. Qed.

Lemma js_text_member_not_proto name : js_text (JsMember name) ≠ "__proto__".
Proof. cbn. by case_decide. Qed.

(** ** Insertion-ordered sets *)

Lemma JsSet_elem_of_add {A} `{EqDecision A} (x y : A) (s : JsSet.t A) :
  x ∈ JsSet.add y s ↔ x = y ∨ x ∈ s.
Proof.
  unfold JsSet.add. case_decide as Hin.
  - split; [tauto | intros [-> | ?]; assumption].
  - rewrite elem_of_app, list_elem_of_singleton. tauto.
Qed.

Lemma JsSet_NoDup_add {A} `{EqDecision A} (y : A) (s : JsSet.t A) :
  NoDup s → NoDup (JsSet.add y s).
Proof.
  intros Hs. unfold JsSet.add. case_decide as Hin; [assumption |].
  apply NoDup_app. repeat split; [assumption | | apply NoDup_singleton].
  intros x Hx ->%list_elem_of_singleton. contradiction.
Qed.

Lemma JsSet_add_prefix {A} `{EqDecision A} (y : A) (s : JsSet.t A) :
  s `prefix_of` JsSet.add y s.
Proof.
  unfold JsSet.add. case_decide; [reflexivity | by apply prefix_app_r].
Qed.

Lemma JsSet_has_true {A} `{EqDecision A} (s : JsSet.t A) x :
  JsSet.has s x = true ↔ x ∈ s.
Proof. unfold JsSet.has. apply bool_decide_eq_true. Qed.

(** ** The row loop *)

Lemma row_step_candidate h acc row :
  row_step h acc row = from_option (push acc) acc (candidate h row).
Proof.
  unfold row_step, candidate.
  destruct (js_not _ || js_not _ || js_not _ || js_not _); reflexivity.
Qed.

Lemma foldl_row_step h rows acc :
  foldl (row_step h) acc rows = foldl push acc (omap (candidate h) rows).
Proof.
  revert acc. induction rows as [|row rows IH]; intros acc; [reflexivity |].
  simpl. rewrite row_step_candidate, IH.
  destruct (candidate h row); reflexivity.
Qed.

Lemma push_edges cs acc :
  allExtractedEdges (foldl push acc cs) = allExtractedEdges acc ++ cs.
Proof.
  revert acc. induction cs as [|c cs IH]; intros acc; cbn [foldl].
  - by rewrite app_nil_r.
  - rewrite IH. cbn. by rewrite <- app_assoc.
Qed.

Lemma push_nodes_elem cs acc x :
  x ∈ overallNodeSet (foldl push acc cs) ↔
  x ∈ overallNodeSet acc ∨
  ∃ c, c ∈ cs ∧ (x = Extracted.source c ∨ x = Extracted.target c).
Proof.
  revert acc. induction cs as [|c cs IH]; intros acc; cbn [foldl].
  - split; [tauto | intros [? | (c & Hc & _)]; [done | by inversion Hc]].
  - rewrite IH. cbn. rewrite !JsSet_elem_of_add. split.
    + intros [[-> | [-> | ?]] | (c' & Hc' & ?)].
      * right. exists c. split; [left | tauto].
      * right. exists c. split; [left | tauto].
      * by left.
      * right. exists c'. split; [by right | done].
    + intros [? | (c' & Hc' & Hx)]; [tauto |].
      apply elem_of_cons in Hc' as [-> | Hc']; [tauto |].
      right. exists c'. done.
Qed.

Lemma push_nodes_NoDup cs acc :
  NoDup (overallNodeSet acc) → NoDup (overallNodeSet (foldl push acc cs)).
Proof.
  revert acc. induction cs as [|c cs IH]; intros acc Hacc; cbn [foldl];
    [assumption |].
  apply IH. cbn. by do 2 apply JsSet_NoDup_add.
Qed.

Lemma push_experiments_elem cs acc x :
  x ∈ experiments (foldl push acc cs) ↔
  x ∈ experiments acc ∨ x ∈ Extracted.experiment <$> cs.
Proof.
  revert acc. induction cs as [|c cs IH]; intros acc; cbn [foldl].
  - rewrite fmap_nil. split; [tauto | intros [? | Hx]; [done | by inversion Hx]].
  - rewrite IH, fmap_cons, elem_of_cons. cbn. rewrite JsSet_elem_of_add. tauto.
Qed.

Lemma push_experiments_NoDup cs acc :
  NoDup (experiments acc) → NoDup (experiments (foldl push acc cs)).
Proof.
  revert acc. induction cs as [|c cs IH]; intros acc Hacc; cbn [foldl];
    [assumption |].
  apply IH. cbn. by apply JsSet_NoDup_add.
Qed.

Lemma push_experiments_prefix cs acc :
  experiments acc `prefix_of` experiments (foldl push acc cs).
Proof.
  revert acc. induction cs as [|c cs IH]; intros acc; cbn [foldl];
    [reflexivity |].
  etrans; [| apply IH]. cbn. apply JsSet_add_prefix.
Qed.

(** The builder's outputs in terms of the accepted candidates. *)
Lemma processed_edges h rows :
  Processed.edges (processCSVData h rows) = omap (candidate h) rows.
Proof.
  unfold processCSVData. cbn. by rewrite foldl_row_step, push_edges.
Qed.

Lemma processed_node_ids h rows :
  Node.id <$> Processed.nodes (processCSVData h rows) =
  overallNodeSet (foldl push acc0 (omap (candidate h) rows)).
Proof.
  unfold processCSVData, JsSet.to_array. cbn.
  rewrite <- list_fmap_compose, foldl_row_step.
  apply list_fmap_id.
Qed.

Lemma processed_node_id_elem h rows x :
  x ∈ Node.id <$> Processed.nodes (processCSVData h rows) ↔
  ∃ c, c ∈ Processed.edges (processCSVData h rows) ∧
       (x = Extracted.source c ∨ x = Extracted.target c).
Proof.
  rewrite processed_node_ids, processed_edges, push_nodes_elem. cbn.
  split; [intros [Hx | Hx]; [by inversion Hx | done] | by right].
Qed.

Lemma processCSVData_skip h row before after :
  candidate h row = None →
  processCSVData h (before ++ row :: after) = processCSVData h (before ++ after).
Proof.
  intros Hc. unfold processCSVData.
  rewrite !foldl_app. cbn [foldl].
  rewrite (row_step_candidate h _ row), Hc. reflexivity.
Qed.

Lemma unique_by_key {A} (f : A → string) (l : list A) x :
  NoDup (f <$> l) → x ∈ f <$> l →
  length (filter (λ a, f a = x) l) = 1%nat.
Proof.
  induction l as [|a l IH]; intros Hnd Hin; [by inversion Hin |].
  rewrite fmap_cons in Hnd, Hin. apply NoDup_cons in Hnd as [Ha Hnd].
  rewrite filter_cons. case_decide as Hfa.
  - subst x. cbn. f_equal.
    destruct (filter _ l) as [|b k] eqn:Hk; [reflexivity |].
    assert (b ∈ filter (λ a0, f a0 = f a) l) as [Hb Hbl]%list_elem_of_filter
      by (rewrite Hk; left).
    destruct Ha. rewrite <- Hb. by apply list_elem_of_fmap_2.
  - apply IH; [assumption |].
    apply elem_of_cons in Hin as [-> | ?]; [done | assumption].
Qed.

(** ** The loaded graph *)

Lemma loaded_graph uuidv4 h rows st :
  fullGraphData (complete_ok uuidv4 h rows st) =
  {| Graph.nodes := Processed.nodes (processCSVData h rows);
     Graph.edges :=
       imap (make_edge uuidv4 (Processed.experimentColorMap (processCSVData h rows)))
            (Processed.edges (processCSVData h rows)) |}.
Proof. reflexivity. Qed.

Lemma loaded_edge_inv uuidv4 colorMap (cs : list Extracted.t) e :
  e ∈ imap (make_edge uuidv4 colorMap) cs →
  ∃ c, c ∈ cs ∧ Edge.source e = Extracted.source c ∧
       Edge.target e = Extracted.target c ∧
       Edge.label e = Extracted.relationship c ∧
       Edge.experiment e = Extracted.experiment c ∧
       Edge.color e =
         js_get JsString colorMap (js_text (Extracted.experiment c)).
Proof.
  intros (k & c & -> & Hk)%elem_of_lookup_imap_1.
  exists c. split; [by eapply list_elem_of_lookup_2 | done].
Qed.

Lemma loaded_edge_intro uuidv4 colorMap (cs : list Extracted.t) c :
  c ∈ cs →
  ∃ e, e ∈ imap (make_edge uuidv4 colorMap) cs ∧
       Edge.source e = Extracted.source c ∧
       Edge.target e = Extracted.target c ∧
       Edge.experiment e = Extracted.experiment c.
Proof.
  intros [k Hk]%list_elem_of_lookup_1.
  exists (make_edge uuidv4 colorMap k c).
  split; [by apply elem_of_lookup_imap_2 | done].
Qed.

Lemma loaded_graph_closed uuidv4 h rows st :
  closed_graph (fullGraphData (complete_ok uuidv4 h rows st)).
Proof.
  unfold closed_graph. rewrite loaded_graph.
  cbn [Graph.nodes Graph.edges].
  apply Forall_forall. intros e (c & Hc & -> & -> & _)%loaded_edge_inv.
  rewrite !processed_node_id_elem. split; exists c; tauto.
Qed.

(** ** Claims about the graph builder *)

(** C2. Every edge of the graph [processCSVData] returns has its source id
    and its target id among the ids of the returned nodes, for all rows and
    all header names; the same holds of the full graph a completed load
    stores. *)
Theorem C2_no_dangling_references uuidv4 h rows st :
  Forall (λ e, Extracted.source e ∈ Node.id <$> Processed.nodes (processCSVData h rows) ∧
               Extracted.target e ∈ Node.id <$> Processed.nodes (processCSVData h rows))
         (Processed.edges (processCSVData h rows)) ∧
  closed_graph (fullGraphData (complete_ok uuidv4 h rows st)).
Proof.
  split; [| apply loaded_graph_closed].
  apply Forall_forall. intros c Hc.
  rewrite !processed_node_id_elem. split; exists c; tauto.
Qed.

(** C8. The nodes [processCSVData] returns have pairwise distinct ids, so
    that each endpoint named by an accepted row is carried by exactly one
    node however many rows name it; the edges are the candidates of the
    accepted rows, one per row and in row order, never merged, and a
    completed load stores one edge per candidate, the [k]-th with the [k]-th
    generated identifier. *)
Theorem C8_node_ids_unique uuidv4 h rows st :
  NoDup (Node.id <$> Processed.nodes (processCSVData h rows)) ∧
  Forall (λ c,
            length (filter (λ n, Node.id n = Extracted.source c)
                           (Processed.nodes (processCSVData h rows))) = 1%nat ∧
            length (filter (λ n, Node.id n = Extracted.target c)
                           (Processed.nodes (processCSVData h rows))) = 1%nat)
         (Processed.edges (processCSVData h rows)) ∧
  Processed.edges (processCSVData h rows) = omap (candidate h) rows ∧
  Edge.id <$> Graph.edges (fullGraphData (complete_ok uuidv4 h rows st)) =
    (λ k, "e-" +:+ uuidv4 k) <$> seq 0 (length (omap (candidate h) rows)).
Proof.
  assert (NoDup (Node.id <$> Processed.nodes (processCSVData h rows))) as Hnd.
  { rewrite processed_node_ids. apply push_nodes_NoDup. apply NoDup_nil_2. }
  split; [assumption |]. split; [| split].
  - apply Forall_forall. intros c Hc.
    split; apply unique_by_key; try assumption;
      apply processed_node_id_elem; exists c; tauto.
  - apply processed_edges.
  - rewrite loaded_graph. cbn [Graph.edges]. rewrite processed_edges.
    generalize (Processed.experimentColorMap (processCSVData h rows)) as colorMap.
    intros colorMap. apply list_eq. intros k.
    rewrite !list_lookup_fmap, list_lookup_imap.
    destruct (omap (candidate h) rows !! k) as [c|] eqn:Hk; cbn.
    + rewrite lookup_seq_lt by (by eapply lookup_lt_Some). reflexivity.
    + rewrite lookup_seq_ge by (by apply lookup_ge_None). reflexivity.
Qed.

(** ** Reading a row *)

Lemma js_not_string s : js_not (JsString s) = true ↔ s = "".
Proof. unfold js_not. cbn. case_decide; split; done. Qed.

Lemma js_not_get_true (row : Row) k :
  js_not (js_get JsString row k) = true ↔
  row !! k = Some "" ∨ (row !! k = None ∧ k ∉ object_prototype_members).
Proof.
  unfold js_get. destruct (row !! k) as [s|].
  - rewrite js_not_string. split.
    + intros ->. by left.
    + intros [[= ->] | [? _]]; done.
  - case_bool_decide as Hk; cbn.
    + split; [done |]. intros [? | [_ ?]]; done.
    + split; [| done]. intros _. by right.
Qed.

Lemma js_not_get_plain (row : Row) k :
  k ∉ object_prototype_members →
  js_not (js_get JsString row k) = true ↔ missing_or_empty (row !! k).
Proof.
  intros Hk. rewrite js_not_get_true. unfold missing_or_empty.
  split; [intros [? | [? _]]; tauto | intros [? | ?]; tauto].
Qed.

Lemma js_not_get_own (row : Row) k s :
  row !! k = Some s → s ≠ "" → js_not (js_get JsString row k) = false.
Proof.
  intros Hk Hs. rewrite (js_get_own _ _ _ _ Hk).
  apply not_true_iff_false. by rewrite js_not_string.
Qed.

Lemma js_or_tag (row : Row) k :
  k ∉ object_prototype_members →
  ∃ tag, js_or (js_get JsString row k) (JsString "undefined") = JsString tag ∧
         tag_of (row !! k) tag.
Proof.
  intros Hk. unfold js_or, js_get, tag_of, missing_or_empty.
  destruct (row !! k) as [s|]; cbn.
  - case_decide; subst; eexists; (split; [reflexivity |]); auto.
  - rewrite bool_decide_eq_false_2 by assumption. cbn.
    eexists. split; [reflexivity |]. auto.
Qed.

Lemma candidate_None_plain h row :
  plain_headers h →
  candidate h row = None ↔
  missing_or_empty (row !! modelHeader h) ∨
  missing_or_empty (row !! fromNodeHeader h) ∨
  missing_or_empty (row !! toNodeHeader h) ∨
  missing_or_empty (row !! relationshipHeader h).
Proof.
  intros (Hm & Hf & Ht & Hr & _). unfold candidate.
  rewrite <- !js_not_get_plain by assumption.
  destruct (js_not (js_get JsString row (fromNodeHeader h))),
           (js_not (js_get JsString row (toNodeHeader h))),
           (js_not (js_get JsString row (modelHeader h))),
           (js_not (js_get JsString row (relationshipHeader h)));
    cbn; split; try done; try tauto; intros [? | [? | [? | ?]]]; done.
Qed.

Lemma candidate_Some h row m f t r :
  row !! modelHeader h = Some m → m ≠ "" →
  row !! fromNodeHeader h = Some f → f ≠ "" →
  row !! toNodeHeader h = Some t → t ≠ "" →
  row !! relationshipHeader h = Some r → r ≠ "" →
  candidate h row =
  Some {| Extracted.source := m +:+ ":" +:+ f;
          Extracted.target := m +:+ ":" +:+ t;
          Extracted.relationship := JsString r;
          Extracted.experiment :=
            js_or (js_get JsString row (experimentHeader h))
                  (JsString "undefined") |}.
Proof.
  intros Hm Hm' Hf Hf' Ht Ht' Hr Hr'. unfold candidate.
  rewrite (js_not_get_own row _ m Hm), (js_not_get_own row _ f Hf),
          (js_not_get_own row _ t Ht), (js_not_get_own row _ r Hr)
    by assumption.
  cbn [orb].
  by rewrite (js_get_own _ _ _ _ Hm), (js_get_own _ _ _ _ Hf),
             (js_get_own _ _ _ _ Ht), (js_get_own _ _ _ _ Hr).
Qed.

Lemma append_inj_r p a b : p +:+ a = p +:+ b → a = b.
Proof.
  induction p as [|c p IH]; [done |]. intros [= Heq]. by apply IH.
Qed.

(** C3, at the input where the code departs from it. With the model read
    from a column named [constructor] and a file without that column, the
    model field of the row is missing, yet the row passes the guard: the
    lookup finds the function every object inherits, and the row becomes an
    edge between two nodes whose ids start with the text of that
    function. *)
Theorem C3_inherited_field_is_accepted :
  missing_or_empty (row_without_model !! modelHeader headers_constructor) ∧
  Processed.edges (processCSVData headers_constructor [row_without_model]) =
    [{| Extracted.source := ("function" +:+ native_text "constructor") +:+ ":a";
        Extracted.target := ("function" +:+ native_text "constructor") +:+ ":b";
        Extracted.relationship := JsString "r1";
        Extracted.experiment := JsString "e1" |}] ∧
  length (Processed.nodes (processCSVData headers_constructor [row_without_model]))
    = 2%nat.
Proof.
  split; [left; reflexivity |].
  assert (candidate headers_constructor row_without_model =
          Some {| Extracted.source :=
                    ("function" +:+ native_text "constructor") +:+ ":a";
                  Extracted.target :=
                    ("function" +:+ native_text "constructor") +:+ ":b";
                  Extracted.relationship := JsString "r1";
                  Extracted.experiment := JsString "e1" |}) as Hc
    by reflexivity.
  split.
  - rewrite processed_edges. cbn [omap list_omap]. by rewrite Hc.
  - rewrite <- (length_fmap Node.id), processed_node_ids.
    cbn [omap list_omap]. rewrite Hc. cbn [foldl push overallNodeSet acc0].
    cbn [Extracted.source Extracted.target].
    unfold JsSet.add at 2. unfold JsSet.empty.
    rewrite decide_False by (by inversion 1). cbn [app].
    unfold JsSet.add. rewrite decide_False; [reflexivity |].
    intros [Heq%append_inj_r | Hin]%elem_of_cons; [done | by inversion Hin].
Qed.

(** X6. When no header name is the name of a member of
    [Object.prototype], a row in which the model, from-node, to-node or
    relationship field is missing or empty is dropped, the built graph
    being the one built without the row; any other row yields exactly one
    edge candidate, placed between the candidates of the rows before and
    after it, with source [model:from_node], target [model:to_node], the
    relationship as label and the experiment field as tag, the literal
    ["undefined"] standing in for a missing or empty experiment. *)
Theorem X6_row_normalization_plain_headers h (row : Row) :
  plain_headers h →
  (missing_or_empty (row !! modelHeader h) ∨
   missing_or_empty (row !! fromNodeHeader h) ∨
   missing_or_empty (row !! toNodeHeader h) ∨
   missing_or_empty (row !! relationshipHeader h) →
   ∀ before after,
     processCSVData h (before ++ row :: after) =
     processCSVData h (before ++ after)) ∧
  (∀ m f t r,
     row !! modelHeader h = Some m → m ≠ "" →
     row !! fromNodeHeader h = Some f → f ≠ "" →
     row !! toNodeHeader h = Some t → t ≠ "" →
     row !! relationshipHeader h = Some r → r ≠ "" →
     ∃ tag, tag_of (row !! experimentHeader h) tag ∧
     ∀ before after,
       Processed.edges (processCSVData h (before ++ row :: after)) =
       Processed.edges (processCSVData h before) ++
       [{| Extracted.source := m +:+ ":" +:+ f;
           Extracted.target := m +:+ ":" +:+ t;
           Extracted.relationship := JsString r;
           Extracted.experiment := JsString tag |}] ++
       Processed.edges (processCSVData h after)).
Proof.
  intros Hplain. split.
  - intros Hbad before after. apply processCSVData_skip.
    by apply candidate_None_plain.
  - intros m f t r Hm Hm' Hf Hf' Ht Ht' Hr Hr'.
    destruct Hplain as (_ & _ & _ & _ & He).
    destruct (js_or_tag row (experimentHeader h) He) as (tag & Htag & Hof).
    exists tag. split; [exact Hof |]. intros before after.
    rewrite !processed_edges, omap_app. cbn.
    by rewrite (candidate_Some h row m f t r), Htag.
Qed.

(** ** Splitting an id at the separator *)

Lemma split_colon_nonempty s : split_colon s ≠ [].
Proof.
  destruct s as [|c rest]; cbn; [done |].
  case_decide; [done |]. by destruct (split_colon rest).
Qed.

Lemma join_split_colon s : join_colon (split_colon s) = s.
Proof.
  induction s as [|c rest IH]; [reflexivity |]. cbn [split_colon].
  pose proof (split_colon_nonempty rest) as Hne.
  case_decide as Hc.
  - subst c. destruct (split_colon rest) as [|q qs]; [done |].
    rewrite <- IH. reflexivity.
  - destruct (split_colon rest) as [|p ps]; [done |].
    rewrite <- IH. destruct ps as [|q qs]; reflexivity.
Qed.

Lemma split_colon_hd s : hd "" (split_colon s) = before_first_colon s.
Proof.
  induction s as [|c rest IH]; [reflexivity |]. cbn.
  pose proof (split_colon_nonempty rest) as Hne.
  case_decide; [reflexivity |].
  destruct (split_colon rest) as [|p ps]; [done |]. cbn in *. by rewrite IH.
Qed.

Lemma split_colon_tl s :
  has_colon s = true → join_colon (tl (split_colon s)) = after_first_colon s.
Proof.
  induction s as [|c rest IH]; [done |]. cbn [has_colon split_colon after_first_colon].
  pose proof (split_colon_nonempty rest) as Hne.
  case_decide.
  - intros _. cbn [tl]. apply join_split_colon.
  - intros Hrest. destruct (split_colon rest) as [|p ps]; [done |].
    cbn [tl] in *. by apply IH.
Qed.

Lemma before_first_colon_free s : has_colon (before_first_colon s) = false.
Proof.
  induction s as [|c rest IH]; [reflexivity |]. cbn.
  case_decide; [reflexivity |]. cbn. by case_decide.
Qed.

Lemma first_colon_decompose s :
  has_colon s = true →
  s = before_first_colon s +:+ ":" +:+ after_first_colon s.
Proof.
  induction s as [|c rest IH]; [done |]. cbn.
  case_decide; [by subst |]. intros Hrest.
  change (String c rest =
          String c (before_first_colon rest +:+ ":" +:+ after_first_colon rest)).
  f_equal. by apply IH.
Qed.

Lemma append_String c a b : String c a +:+ b = String c (a +:+ b).
Proof. reflexivity. Qed.

Lemma has_colon_app a b : has_colon (a +:+ ":" +:+ b) = true.
Proof.
  induction a as [|c a IH]; [reflexivity |].
  rewrite append_String. cbn [has_colon]. by case_decide.
Qed.

(** The two spec-side functions pick the unique decomposition of an id
    whose first component is free of the separator. *)
Lemma first_colon_unique a b :
  has_colon a = false →
  before_first_colon (a +:+ ":" +:+ b) = a ∧
  after_first_colon (a +:+ ":" +:+ b) = b.
Proof.
  induction a as [|c a IH]; [done |].
  rewrite append_String. cbn [has_colon before_first_colon after_first_colon].
  case_decide; [done |]. intros [Hb Ha]%IH. by rewrite Hb, Ha.
Qed.

Lemma candidate_ids_have_colon h row c :
  candidate h row = Some c →
  has_colon (Extracted.source c) = true ∧ has_colon (Extracted.target c) = true.
Proof.
  unfold candidate. destruct (_ || _); [done |].
  intros [= <-]. cbn. split; apply has_colon_app.
Qed.

(** C9. Every node [processCSVData] materializes has as model the portion
    of its id strictly before the first [":"] and as label the whole
    remainder after that first [":"], later separators included; hence
    model, [":"] and label concatenate to the id and the model is free of
    [":"]. *)
Theorem C9_node_model_label h rows :
  Forall (λ n,
            Node.model n = before_first_colon (Node.id n) ∧
            Node.label n = after_first_colon (Node.id n) ∧
            Node.model n +:+ ":" +:+ Node.label n = Node.id n ∧
            has_colon (Node.model n) = false)
         (Processed.nodes (processCSVData h rows)).
Proof.
  apply Forall_forall. intros n Hn.
  assert (has_colon (Node.id n) = true) as Hcolon.
  { apply (list_elem_of_fmap_2 Node.id) in Hn.
    apply processed_node_id_elem in Hn as (c & Hc & Hid).
    rewrite processed_edges in Hc.
    apply list_elem_of_omap in Hc as (row & _ & Hrow).
    apply candidate_ids_have_colon in Hrow as [Hs Ht].
    destruct Hid as [-> | ->]; assumption. }
  unfold processCSVData in Hn. cbn in Hn.
  apply list_elem_of_fmap in Hn as (nodeId & -> & _).
  unfold make_node in *. cbn in *.
  rewrite split_colon_hd, split_colon_tl by assumption.
  repeat split.
  - symmetry. by apply first_colon_decompose.
  - apply before_first_colon_free.
Qed.


(** ** The visibility filter *)

Lemma closed_graph_no_nodes g :
  closed_graph g → Graph.nodes g = [] → Graph.edges g = [].
Proof.
  unfold closed_graph. intros Hg Hn. rewrite Hn in Hg.
  destruct (Graph.edges g) as [|e es]; [reflexivity |].
  apply Forall_cons in Hg as [[Hs _] _]. by inversion Hs.
Qed.

Lemma view_of_no_nodes g sel :
  Graph.nodes g = [] →
  filteredGraphData g sel = {| View.nodes := []; View.links := [] |}.
Proof. intros Hn. unfold filteredGraphData. by rewrite Hn. Qed.

Lemma view_links g sel :
  Graph.nodes g ≠ [] →
  View.links (filteredGraphData g sel) = filter (selected sel) (Graph.edges g).
Proof.
  intros Hn. unfold filteredGraphData.
  rewrite bool_decide_eq_false_2 by (by destruct (Graph.nodes g)).
  cbn [View.links]. apply list_filter_iff. intros e.
  apply js_get_strict_true.
Qed.

Lemma visibleNodeIds_elem (es : list Edge.t) (ids : JsSet.t string) x :
  x ∈ foldl (λ ids edge, JsSet.add (Edge.target edge)
                           (JsSet.add (Edge.source edge) ids)) ids es ↔
  x ∈ ids ∨ ∃ e, e ∈ es ∧ (Edge.source e = x ∨ Edge.target e = x).
Proof.
  revert ids. induction es as [|e es IH]; intros ids; cbn [foldl].
  - split; [tauto | intros [? | (e & He & _)]; [done | by inversion He]].
  - rewrite IH, !JsSet_elem_of_add. split.
    + intros [[-> | [-> | ?]] | (e' & He' & ?)].
      * right. exists e. split; [left | tauto].
      * right. exists e. split; [left | tauto].
      * by left.
      * right. exists e'. split; [by right | done].
    + intros [? | (e' & He' & Hx)]; [tauto |].
      apply elem_of_cons in He' as [-> | He'].
      * left. destruct Hx as [<- | <-]; tauto.
      * right. by exists e'.
Qed.

Lemma view_nodes g sel :
  View.nodes (filteredGraphData g sel) =
  filter (λ n, Exists (incident n) (View.links (filteredGraphData g sel)))
         (Graph.nodes g).
Proof.
  destruct (Graph.nodes g) as [|n0 ns] eqn:Hn.
  - by rewrite view_of_no_nodes.
  - unfold filteredGraphData. rewrite Hn. cbn [length bool_decide].
    rewrite bool_decide_eq_false_2 by done. cbn [View.nodes View.links].
    apply list_filter_iff. intros n.
    rewrite JsSet_has_true, visibleNodeIds_elem, Exists_exists.
    unfold incident. split.
    + intros [Hin | ?]; [by inversion Hin | done].
    + by right.
Qed.

Lemma filter_sublist_impl {A} (P Q : A → Prop)
    `{!∀ x, Decision (P x)} `{!∀ x, Decision (Q x)} (l : list A) :
  (∀ x, x ∈ l → P x → Q x) → filter P l `sublist_of` filter Q l.
Proof.
  induction l as [|x l IH]; intros HPQ; [constructor |].
  assert (filter P l `sublist_of` filter Q l) as Hl.
  { apply IH. intros y Hy. apply HPQ. by right. }
  rewrite !filter_cons. destruct (decide (P x)) as [HP | HP].
  - rewrite decide_True by (apply HPQ; [left | done]). by constructor.
  - destruct (decide (Q x)); [by constructor | done].
Qed.

Lemma empty_graph_closed : closed_graph Graph.empty.
Proof. unfold closed_graph. cbn. apply Forall_nil_2. Qed.

(** The hypothesis of the filter claims holds in every state the component
    reaches. *)
Lemma reachable_closed st : reachable st → closed_graph (fullGraphData st).
Proof.
  induction 1 as [| url st _ IH _
                  | fetch_text papa_parse uuidv4 h url st _ IH
                  | experiment st _ IH].
  - apply empty_graph_closed.
  - apply empty_graph_closed.
  - unfold handleVisualize.
    destruct (js_not (JsString url) || negb (endsWith url ".csv")); [exact IH |].
    destruct (fetch_text url) as [csvText|]; [| apply empty_graph_closed].
    destruct (bool_decide _); [apply empty_graph_closed |].
    apply loaded_graph_closed.
  - exact IH.
Qed.

(** C4. In the view of a full graph, whose edges all name nodes of the
    graph, the links are the edges whose experiment the selection maps to
    exactly [true], in their order; an edge of an experiment that is absent
    from the selection or mapped to [false] is not a link. *)
Theorem C4_edge_filter g (sel : gmap string bool) :
  closed_graph g →
  View.links (filteredGraphData g sel) =
    filter (λ e, sel !! js_text (Edge.experiment e) = Some true) (Graph.edges g) ∧
  (∀ e, e ∈ View.links (filteredGraphData g sel) ↔
        e ∈ Graph.edges g ∧ sel !! js_text (Edge.experiment e) = Some true) ∧
  (∀ e, sel !! js_text (Edge.experiment e) = None ∨ sel !! js_text (Edge.experiment e) = Some false →
        e ∉ View.links (filteredGraphData g sel)).
Proof.
  intros Hg.
  assert (View.links (filteredGraphData g sel) =
          filter (selected sel) (Graph.edges g)) as Heq.
  { destruct (Graph.nodes g) as [|n0 ns] eqn:Hn.
    - rewrite view_of_no_nodes by assumption.
      by rewrite (closed_graph_no_nodes g Hg Hn).
    - apply view_links. by rewrite Hn. }
  split; [exact Heq |]. rewrite Heq. split.
  - intros e. rewrite list_elem_of_filter. unfold selected. tauto.
  - intros e Hsel [He _]%list_elem_of_filter. unfold selected in He.
    destruct Hsel as [Hsel | Hsel]; congruence.
Qed.

(** C5. The nodes of the view are exactly the nodes of the full graph that
    are the source or the target of at least one link of the view, in their
    order; a node without a visible incident edge is not in the view, be
    the visible edges read off the view's links or off the edges of the
    full graph that the selection maps to [true]. *)
Theorem C5_view_nodes_incident g (sel : gmap string bool) :
  View.nodes (filteredGraphData g sel) =
    filter (λ n, Exists (incident n) (View.links (filteredGraphData g sel)))
           (Graph.nodes g) ∧
  (∀ n, n ∈ View.nodes (filteredGraphData g sel) ↔
        n ∈ Graph.nodes g ∧
        ∃ e, e ∈ View.links (filteredGraphData g sel) ∧
             (Edge.source e = Node.id n ∨ Edge.target e = Node.id n)) ∧
  (∀ n, n ∈ View.nodes (filteredGraphData g sel) ↔
        n ∈ Graph.nodes g ∧
        ∃ e, e ∈ Graph.edges g ∧ sel !! js_text (Edge.experiment e) = Some true ∧
             (Edge.source e = Node.id n ∨ Edge.target e = Node.id n)).
Proof.
  assert (∀ n, n ∈ View.nodes (filteredGraphData g sel) ↔
               n ∈ Graph.nodes g ∧
               ∃ e, e ∈ View.links (filteredGraphData g sel) ∧
                    (Edge.source e = Node.id n ∨ Edge.target e = Node.id n))
    as Hiff.
  { intros n. rewrite view_nodes at 1.
    rewrite list_elem_of_filter, Exists_exists. unfold incident. tauto. }
  split; [apply view_nodes |]. split; [exact Hiff |].
  intros n. rewrite Hiff.
  destruct (decide (Graph.nodes g = [])) as [Hn | Hn].
  - rewrite Hn. split; intros [Hin _]; by inversion Hin.
  - rewrite view_links by assumption.
    split; intros [Hin (e & He & Hinc)]; (split; [assumption |]); exists e.
    + apply list_elem_of_filter in He as [Hsel He]. done.
    + destruct Hinc as [Hsel Hinc].
      split; [| assumption]. by apply list_elem_of_filter.
Qed.

(** C7. When every key a selection [s2] maps to [true] is mapped to [true]
    by [s1], the view of a graph under [s1] contains every link and every
    node of its view under [s2], in the same relative order. *)
Theorem C7_filter_monotone g (s1 s2 : gmap string bool) :
  (∀ k, s2 !! k = Some true → s1 !! k = Some true) →
  (∀ e, e ∈ View.links (filteredGraphData g s2) →
        e ∈ View.links (filteredGraphData g s1)) ∧
  (∀ n, n ∈ View.nodes (filteredGraphData g s2) →
        n ∈ View.nodes (filteredGraphData g s1)) ∧
  View.links (filteredGraphData g s2) `sublist_of`
    View.links (filteredGraphData g s1) ∧
  View.nodes (filteredGraphData g s2) `sublist_of`
    View.nodes (filteredGraphData g s1).
Proof.
  intros Hsup.
  assert (View.links (filteredGraphData g s2) `sublist_of`
          View.links (filteredGraphData g s1)) as Hlinks.
  { destruct (Graph.nodes g) as [|n0 ns] eqn:Hn.
    - by rewrite !view_of_no_nodes.
    - rewrite !view_links by (by rewrite Hn).
      apply filter_sublist_impl. intros e _. apply Hsup. }
  assert (View.nodes (filteredGraphData g s2) `sublist_of`
          View.nodes (filteredGraphData g s1)) as Hnodes.
  { rewrite (view_nodes g s1), (view_nodes g s2).
    apply filter_sublist_impl. intros n _.
    rewrite !Exists_exists. intros (e & He & Hinc).
    exists e. split; [| assumption].
    by eapply elem_of_sublist. }
  repeat split; try assumption.
  - intros e He. by eapply elem_of_sublist.
  - intros n Hn. by eapply elem_of_sublist.
Qed.


(** ** Colour assignment *)

Lemma build_colorMap_snoc exps x :
  build_colorMap (exps ++ [x]) =
  js_set (js_text x) (colors_at (length exps mod length colors))
         (build_colorMap exps).
Proof.
  unfold build_colorMap. rewrite imap_app, foldl_app. cbn [imap foldl].
  by rewrite Nat.add_0_r.
Qed.

Lemma build_colorMap_no_proto exps : build_colorMap exps !! "__proto__" = None.
Proof.
  induction exps as [|x exps IH] using rev_ind; [reflexivity |].
  rewrite build_colorMap_snoc. by apply js_set_no_proto.
Qed.

Lemma build_colorMap_is_Some exps k :
  is_Some (build_colorMap exps !! k) ↔
  k ≠ "__proto__" ∧ k ∈ js_text <$> exps.
Proof.
  induction exps as [|x exps IH] using rev_ind.
  - unfold build_colorMap. cbn. rewrite lookup_empty. split.
    + by intros [? ?].
    + intros [_ Hin]. by inversion Hin.
  - rewrite build_colorMap_snoc, js_set_lookup by apply build_colorMap_no_proto.
    rewrite fmap_app, elem_of_app. cbn [fmap list_fmap].
    rewrite list_elem_of_singleton.
    case_decide as Hk.
    + destruct Hk as [-> Hne]. split; [intros _ | by eexists]. auto.
    + rewrite IH. split; [tauto |].
      intros [Hne [Hin | ->]]; [tauto |]. destruct Hk. done.
Qed.

Lemma build_colorMap_lookup exps i v :
  NoDup (js_text <$> exps) → exps !! i = Some v → js_text v ≠ "__proto__" →
  build_colorMap exps !! js_text v = Some (colors_at (i mod length colors)).
Proof.
  revert i. induction exps as [|x exps IH] using rev_ind; intros i Hnd Hi Hv;
    [done |].
  rewrite fmap_app in Hnd. apply NoDup_app in Hnd as (Hnd & Hfresh & _).
  rewrite build_colorMap_snoc, js_set_lookup by apply build_colorMap_no_proto.
  destruct (decide (i < length exps)%nat) as [Hlt | Hge].
  - rewrite lookup_app_l in Hi by assumption.
    rewrite decide_False; [by apply IH |].
    intros [Heq _]. eapply Hfresh.
    + apply list_elem_of_fmap_2. by eapply list_elem_of_lookup_2.
    + rewrite <- Heq. left.
  - rewrite lookup_app_r in Hi by lia.
    destruct (i - length exps)%nat as [|k] eqn:Hk; [| by destruct k].
    injection Hi as ->. replace i with (length exps) by lia.
    by rewrite decide_True.
Qed.

Lemma colors_at_lookup i :
  colors !! (i mod length colors) = Some (colors_at (i mod length colors)).
Proof.
  unfold colors_at.
  destruct (nth_lookup_or_length colors (i mod length colors) "") as [Hi | Hi];
    [exact Hi |].
  pose proof (Nat.mod_upper_bound i (length colors)) as Hlt.
  cbn in *. lia.
Qed.

Lemma colors_at_in_palette i : colors_at (i mod length colors) ∈ colors.
Proof. eapply list_elem_of_lookup_2, colors_at_lookup. Qed.

Lemma build_colorMap_values exps :
  map_Forall (λ _ c, c ∈ colors) (build_colorMap exps).
Proof.
  induction exps as [|x exps IH] using rev_ind; [apply map_Forall_empty |].
  rewrite build_colorMap_snoc. intros t c.
  rewrite js_set_lookup by apply build_colorMap_no_proto.
  case_decide; [| apply IH].
  intros [= <-]. apply colors_at_in_palette.
Qed.

Lemma colors_NoDup : NoDup colors.
Proof. apply (bool_decide_unpack _). vm_compute. exact I. Qed.

Lemma experiments_of_candidates cs :
  NoDup (experiments (foldl push acc0 cs)) ∧
  ∀ x, x ∈ experiments (foldl push acc0 cs) ↔ x ∈ Extracted.experiment <$> cs.
Proof.
  split; [apply push_experiments_NoDup, NoDup_nil_2 |].
  intros x. rewrite push_experiments_elem. cbn.
  split; [intros [Hx | Hx]; [by inversion Hx | done] | by right].
Qed.

Lemma processed_colorMap h rows :
  Processed.experimentColorMap (processCSVData h rows) =
  build_colorMap (experiments (foldl push acc0 (omap (candidate h) rows))).
Proof.
  unfold processCSVData, JsSet.to_array. cbn [Processed.experimentColorMap].
  by rewrite foldl_row_step.
Qed.

Lemma processed_colorMap_key h rows k :
  is_Some (Processed.experimentColorMap (processCSVData h rows) !! k) ↔
  k ≠ "__proto__" ∧ k ∈ js_text <$> tags_of h rows.
Proof.
  rewrite processed_colorMap, build_colorMap_is_Some.
  unfold tags_of. rewrite processed_edges.
  rewrite !list_elem_of_fmap.
  split; intros [Hk (v & -> & Hv)]; (split; [exact Hk |]); exists v;
    (split; [reflexivity |]); by apply experiments_of_candidates.
Qed.

Lemma processed_colorMap_is_Some h rows c :
  c ∈ Processed.edges (processCSVData h rows) →
  js_text (Extracted.experiment c) ≠ "__proto__" →
  is_Some (Processed.experimentColorMap (processCSVData h rows)
             !! js_text (Extracted.experiment c)).
Proof.
  intros Hc Hkey. apply processed_colorMap_key. split; [exact Hkey |].
  unfold tags_of. by do 2 apply list_elem_of_fmap_2.
Qed.

(** A tag first seen at position [j] sits in the experiment set right
    after the tags seen before it. *)
Lemma experiments_first_seen cs j v :
  (Extracted.experiment <$> cs) !! j = Some v →
  v ∉ take j (Extracted.experiment <$> cs) →
  experiments (foldl push acc0 cs) !!
    length (experiments (foldl push acc0 (take j cs))) = Some v.
Proof.
  intros Hj Hfresh.
  rewrite list_lookup_fmap in Hj.
  destruct (cs !! j) as [c|] eqn:Hc; [| done]. injection Hj as <-.
  rewrite <- fmap_take in Hfresh.
  replace (foldl push acc0 cs)
    with (foldl push acc0 (take j cs ++ c :: drop (S j) cs))
    by (by rewrite take_drop_middle).
  rewrite foldl_app. cbn [foldl].
  eapply prefix_lookup_Some; [| apply push_experiments_prefix].
  cbn. unfold JsSet.add.
  rewrite decide_False
    by (by rewrite (proj2 (experiments_of_candidates (take j cs)))).
  apply list_lookup_middle. reflexivity.
Qed.

(** ** String-valued tags *)

Lemma js_text_inj_strings (l : list JsValue) :
  Forall (λ v, ∃ s, v = JsString s) l → NoDup l → NoDup (js_text <$> l).
Proof.
  intros Hstr Hnd. apply NoDup_fmap_2_strong; [| exact Hnd].
  rewrite Forall_forall in Hstr.
  intros x y [s ->]%Hstr [s' ->]%Hstr. cbn. by intros ->.
Qed.

Lemma candidate_tag_string h row c :
  experimentHeader h ∉ object_prototype_members →
  candidate h row = Some c → ∃ s, Extracted.experiment c = JsString s.
Proof.
  intros He Hc. unfold candidate in Hc.
  destruct (_ || _); [done |]. injection Hc as <-. cbn.
  destruct (js_or_tag row (experimentHeader h) He) as (tag & -> & _).
  by exists tag.
Qed.

Lemma tags_strings h (rows : list Row) :
  experimentHeader h ∉ object_prototype_members →
  Forall (λ v, ∃ s, v = JsString s)
         (Extracted.experiment <$> omap (candidate h) rows).
Proof.
  intros He. apply Forall_forall.
  intros v (c & -> & (row & _ & Hc)%list_elem_of_omap)%list_elem_of_fmap.
  by eapply candidate_tag_string.
Qed.

Lemma experiments_strings cs :
  Forall (λ v, ∃ s, v = JsString s) (Extracted.experiment <$> cs) →
  Forall (λ v, ∃ s, v = JsString s) (experiments (foldl push acc0 cs)).
Proof.
  rewrite !Forall_forall. intros Hstr v Hv%experiments_of_candidates.
  by apply Hstr.
Qed.

Lemma experiments_texts_NoDup cs :
  Forall (λ v, ∃ s, v = JsString s) (Extracted.experiment <$> cs) →
  NoDup (js_text <$> experiments (foldl push acc0 cs)).
Proof.
  intros Hstr. apply js_text_inj_strings.
  - by apply experiments_strings.
  - apply experiments_of_candidates.
Qed.

Lemma experiments_length cs :
  Forall (λ v, ∃ s, v = JsString s) (Extracted.experiment <$> cs) →
  length (experiments (foldl push acc0 cs)) =
  size (list_to_set (js_text <$> (Extracted.experiment <$> cs)) : gset string).
Proof.
  intros Hstr.
  rewrite <- (length_fmap js_text).
  rewrite <- (size_list_to_set (C:=gset string))
    by by apply experiments_texts_NoDup.
  f_equal. apply set_eq. intros x. rewrite !elem_of_list_to_set.
  rewrite !list_elem_of_fmap.
  split; intros (v & -> & Hv); exists v; (split; [reflexivity |]);
    by apply experiments_of_candidates.
Qed.

Lemma colorMap_first_seen h rows j t :
  experimentHeader h ∉ object_prototype_members →
  first_seen h rows j t →
  Processed.experimentColorMap (processCSVData h rows) !! t =
  colors !! (distinct_before j (js_text <$> tags_of h rows) mod length colors).
Proof.
  intros He (Hj & Hfresh & Hproto). unfold tags_of in *.
  rewrite processed_edges in *. rewrite processed_colorMap.
  pose proof (tags_strings h rows He) as Hstr.
  pose proof (experiments_first_seen _ _ _ Hj Hfresh) as Hseen.
  pose proof (build_colorMap_lookup _ _ (JsString t)
                (experiments_texts_NoDup _ Hstr) Hseen Hproto) as Hcol.
  change (js_text (JsString t)) with t in Hcol. rewrite Hcol.
  rewrite colors_at_lookup. do 3 f_equal.
  unfold distinct_before. rewrite <- !fmap_take.
  apply experiments_length. rewrite fmap_take.
  by apply Forall_take.
Qed.

(** C6, at the input where the code departs from it. A single row whose
    experiment cell is the text [__proto__] is accepted with that tag, the
    first distinct one; the assignment of App.js 57 then reaches the
    [__proto__] setter and stores nothing, so the colour map stays empty
    and the stored edge carries the prototype object, not a colour. *)
Theorem C6_proto_tag_gets_no_color uuidv4 st :
  tags_of defaultHeaders [row_proto_tag] = [JsString "__proto__"] ∧
  Processed.experimentColorMap (processCSVData defaultHeaders [row_proto_tag])
    = ∅ ∧
  experimentColors (complete_ok uuidv4 defaultHeaders [row_proto_tag] st) = ∅ ∧
  Edge.color <$> Graph.edges (fullGraphData
      (complete_ok uuidv4 defaultHeaders [row_proto_tag] st))
    = [JsMember "__proto__"].
Proof. repeat split. Qed.

(** X5. When the experiment header is not the name of a member of
    [Object.prototype], a tag other than [__proto__] that is first seen
    after [i] distinct tags is mapped to [colors[i mod 8]]; the palette is
    reused round-robin, two such tags getting the same colour exactly when
    their counts of earlier distinct tags are congruent modulo 8. *)
Theorem X5_color_round_robin h rows j1 t1 j2 t2 :
  experimentHeader h ∉ object_prototype_members →
  first_seen h rows j1 t1 →
  first_seen h rows j2 t2 →
  Processed.experimentColorMap (processCSVData h rows) !! t1 =
    colors !! (distinct_before j1 (js_text <$> tags_of h rows) mod length colors) ∧
  Processed.experimentColorMap (processCSVData h rows) !! t2 =
    colors !! (distinct_before j2 (js_text <$> tags_of h rows) mod length colors) ∧
  (Processed.experimentColorMap (processCSVData h rows) !! t1 =
     Processed.experimentColorMap (processCSVData h rows) !! t2 ↔
   distinct_before j1 (js_text <$> tags_of h rows) mod 8 =
     distinct_before j2 (js_text <$> tags_of h rows) mod 8).
Proof.
  intros He H1 H2.
  rewrite (colorMap_first_seen h rows j1 t1 He H1),
          (colorMap_first_seen h rows j2 t2 He H2).
  split; [reflexivity |]. split; [reflexivity |].
  generalize (distinct_before j1 (js_text <$> tags_of h rows)),
             (distinct_before j2 (js_text <$> tags_of h rows)).
  intros d1 d2.
  assert (colors !! (d1 mod length colors) = colors !! (d2 mod length colors) ↔
          d1 mod length colors = d2 mod length colors) as Hiff;
    [| exact Hiff].
  split; [| by intros ->].
  intros Heq.
  eapply (NoDup_lookup colors); [apply colors_NoDup | |].
  - apply (colors_at_lookup d1).
  - rewrite <- Heq. apply (colors_at_lookup d1).
Qed.

(** X4. A text is a key of the colour map [processCSVData] returns
    exactly when it is the key of the experiment of one of its edges and is
    not [__proto__]; every colour in the map is one of the palette. *)
Theorem X4_colorMap_keys_and_values h rows :
  (∀ k, is_Some (Processed.experimentColorMap (processCSVData h rows) !! k) ↔
        k ≠ "__proto__" ∧ k ∈ js_text <$> tags_of h rows) ∧
  map_Forall (λ _ c, c ∈ colors)
             (Processed.experimentColorMap (processCSVData h rows)).
Proof.
  split; [apply processed_colorMap_key |].
  rewrite processed_colorMap. apply build_colorMap_values.
Qed.

(** ** The initial selection *)

Lemma foldl_set_true (l : list string) (m : gmap string bool) k :
  m !! "__proto__" = None →
  foldl (λ vis exp, js_set exp true vis) m l !! k =
  if decide (k ∈ l ∧ k ≠ "__proto__") then Some true else m !! k.
Proof.
  revert m. induction l as [|x l IH]; intros m Hm; cbn [foldl].
  - rewrite decide_False; [reflexivity | intros [Hin _]; by inversion Hin].
  - rewrite IH by (by apply js_set_no_proto).
    rewrite js_set_lookup by assumption.
    destruct (decide (k ∈ l ∧ k ≠ "__proto__")) as [[Hin Hne] | Hout].
    + rewrite decide_True; [reflexivity | split; [by right | done]].
    + destruct (decide (x = k ∧ x ≠ "__proto__")) as [[-> Hne] | Hx].
      * rewrite decide_True; [reflexivity | split; [left | done]].
      * rewrite decide_False; [reflexivity |].
        intros [[-> | Hin]%elem_of_cons Hne]; tauto.
Qed.

Lemma initialVisibility_spec (colorMap : gmap string string) k :
  initialVisibility colorMap !! k =
  if decide (is_Some (colorMap !! k) ∧ k ≠ "__proto__") then Some true else None.
Proof.
  unfold initialVisibility. rewrite foldl_set_true by apply lookup_empty.
  rewrite lookup_empty.
  assert (k ∈ (map_to_list colorMap).*1 ↔ is_Some (colorMap !! k)) as Hkey.
  { rewrite list_elem_of_fmap. split.
    - intros ([k' c] & -> & Hin%elem_of_map_to_list). by eexists.
    - intros [c Hc]. exists (k, c). split; [reflexivity |].
      by apply elem_of_map_to_list. }
  destruct (decide (k ∈ (map_to_list colorMap).*1 ∧ k ≠ "__proto__"))
    as [[Hin Hne] | Hout].
  - rewrite decide_True; [reflexivity | by rewrite <- Hkey].
  - rewrite decide_False; [reflexivity | by rewrite <- Hkey].
Qed.

Lemma initialVisibility_lookup (colorMap : gmap string string) k :
  is_Some (colorMap !! k) → k ≠ "__proto__" →
  initialVisibility colorMap !! k = Some true.
Proof.
  intros Hk Hne. rewrite initialVisibility_spec. by rewrite decide_True.
Qed.

Lemma initialVisibility_absent (colorMap : gmap string string) k :
  colorMap !! k = None → initialVisibility colorMap !! k = None.
Proof.
  intros Hk. rewrite initialVisibility_spec, Hk.
  rewrite decide_False; [reflexivity | by intros [[? ?] _]].
Qed.

Lemma initialVisibility_processed h rows k :
  initialVisibility (Processed.experimentColorMap (processCSVData h rows)) !! k =
  (λ _, true) <$> Processed.experimentColorMap (processCSVData h rows) !! k.
Proof.
  rewrite initialVisibility_spec.
  destruct (Processed.experimentColorMap (processCSVData h rows) !! k)
    as [c|] eqn:Hk.
  - rewrite decide_True; [reflexivity |]. split; [by eexists |].
    intros ->. rewrite processed_colorMap, build_colorMap_no_proto in Hk. done.
  - rewrite decide_False; [reflexivity | by intros [[? ?] _]].
Qed.

Lemma filter_all {A} (P : A → Prop) `{!∀ x, Decision (P x)} (l : list A) :
  (∀ x, x ∈ l → P x) → filter P l = l.
Proof.
  induction l as [|x l IH]; intros HP; [reflexivity |].
  rewrite filter_cons, decide_True by (apply HP; left).
  f_equal. apply IH. intros y Hy. apply HP. by right.
Qed.

Lemma loaded_no_isolated uuidv4 h rows st :
  Forall (λ n, Exists (incident n)
                 (Graph.edges (fullGraphData (complete_ok uuidv4 h rows st))))
         (Graph.nodes (fullGraphData (complete_ok uuidv4 h rows st))).
Proof.
  rewrite loaded_graph. cbn [Graph.nodes Graph.edges].
  apply Forall_forall. intros n Hn%(list_elem_of_fmap_2 Node.id).
  apply processed_node_id_elem in Hn as (c & Hc & Hid).
  destruct (loaded_edge_intro uuidv4
              (Processed.experimentColorMap (processCSVData h rows)) _ c Hc)
    as (e & He & Hs & Ht & _).
  apply Exists_exists. exists e. split; [assumption |].
  unfold incident. rewrite Hs, Ht. destruct Hid as [-> | ->]; tauto.
Qed.

Lemma loaded_edge_selected uuidv4 h rows st e :
  e ∈ Graph.edges (fullGraphData (complete_ok uuidv4 h rows st)) →
  selected (visibleExperiments (complete_ok uuidv4 h rows st)) e ↔
  js_text (Edge.experiment e) ≠ "__proto__".
Proof.
  rewrite loaded_graph. cbn [Graph.edges].
  intros (c & Hc & _ & _ & _ & He & _)%loaded_edge_inv.
  unfold selected. rewrite He.
  change (visibleExperiments (complete_ok uuidv4 h rows st))
    with (initialVisibility (Processed.experimentColorMap (processCSVData h rows))).
  rewrite initialVisibility_spec. split.
  - case_decide as Hk; [tauto | done].
  - intros Hne. rewrite decide_True; [reflexivity |].
    split; [by apply processed_colorMap_is_Some | exact Hne].
Qed.

(** C10, at the input where the code departs from it. After the load of a
    single row whose experiment cell is the text [__proto__], the graph has
    its two nodes and its edge, but the colour map has no own key, so the
    initial selection is empty and the view of the fresh graph shows
    neither the edge nor the nodes: the page asks to select an experiment
    and offers no legend to select one from. *)
Theorem C10_proto_tag_is_hidden uuidv4 st :
  Node.id <$> Graph.nodes (fullGraphData
      (complete_ok uuidv4 defaultHeaders [row_proto_tag] st)) = ["m1:a"; "m1:b"] ∧
  length (Graph.edges (fullGraphData
      (complete_ok uuidv4 defaultHeaders [row_proto_tag] st))) = 1%nat ∧
  visibleExperiments (complete_ok uuidv4 defaultHeaders [row_proto_tag] st) = ∅ ∧
  filteredGraphData
    (fullGraphData (complete_ok uuidv4 defaultHeaders [row_proto_tag] st))
    (visibleExperiments (complete_ok uuidv4 defaultHeaders [row_proto_tag] st))
    = {| View.nodes := []; View.links := [] |} ∧
  showsFilteredOut (complete_ok uuidv4 defaultHeaders [row_proto_tag] st) = true ∧
  showsLegend (complete_ok uuidv4 defaultHeaders [row_proto_tag] st) = false.
Proof. repeat split. Qed.

(** X3. Every node [processCSVData] returns is the source or the target
    of one of the returned edges, and so is every node of the graph a
    completed load stores; the selection the load installs maps exactly the
    keys of the colour map to [true]; and when no edge has the experiment
    key [__proto__], the view of the fresh graph under that selection has
    all its nodes and all its edges. *)
Theorem X3_fresh_view_is_full uuidv4 h rows st :
  Forall (λ n, Exists (λ c, Extracted.source c = Node.id n ∨
                            Extracted.target c = Node.id n)
                      (Processed.edges (processCSVData h rows)))
         (Processed.nodes (processCSVData h rows)) ∧
  Forall (λ n, Exists (incident n)
                      (Graph.edges (fullGraphData (complete_ok uuidv4 h rows st))))
         (Graph.nodes (fullGraphData (complete_ok uuidv4 h rows st))) ∧
  (∀ k, visibleExperiments (complete_ok uuidv4 h rows st) !! k =
        (λ _, true) <$> Processed.experimentColorMap (processCSVData h rows) !! k) ∧
  (Forall (λ c, js_text (Extracted.experiment c) ≠ "__proto__")
          (Processed.edges (processCSVData h rows)) →
   filteredGraphData (fullGraphData (complete_ok uuidv4 h rows st))
                     (visibleExperiments (complete_ok uuidv4 h rows st)) =
     {| View.nodes := Graph.nodes (fullGraphData (complete_ok uuidv4 h rows st));
        View.links := Graph.edges (fullGraphData (complete_ok uuidv4 h rows st)) |}).
Proof.
  split_and!.
  - apply Forall_forall. intros n Hn%(list_elem_of_fmap_2 Node.id).
    apply processed_node_id_elem in Hn as (c & Hc & Hid).
    apply Exists_exists. exists c. split; [assumption |].
    destruct Hid as [-> | ->]; tauto.
  - apply loaded_no_isolated.
  - intros k. apply initialVisibility_processed.
  - intros Hplain.
    pose proof (loaded_no_isolated uuidv4 h rows st) as Hiso.
    pose proof (loaded_graph_closed uuidv4 h rows st) as Hclosed.
    set (g := fullGraphData (complete_ok uuidv4 h rows st)) in *.
    set (sel := visibleExperiments (complete_ok uuidv4 h rows st)) in *.
    destruct (decide (Graph.nodes g = [])) as [Hn | Hn].
    + rewrite view_of_no_nodes by assumption.
      by rewrite Hn, (closed_graph_no_nodes g Hclosed Hn).
    + assert (View.links (filteredGraphData g sel) = Graph.edges g) as Hlinks.
      { rewrite view_links by assumption. apply filter_all.
        intros e He. apply loaded_edge_selected; [exact He |].
        subst g. rewrite loaded_graph in He. cbn [Graph.edges] in He.
        apply loaded_edge_inv in He as (c & Hc & _ & _ & _ & -> & _).
        rewrite Forall_forall in Hplain. by apply Hplain. }
      pose proof (view_nodes g sel) as Hnodes.
      rewrite Hlinks in Hnodes.
      rewrite filter_all in Hnodes
        by (rewrite Forall_forall in Hiso; exact Hiso).
      destruct (filteredGraphData g sel) as [vnodes vlinks].
      cbn [View.nodes View.links] in *. by rewrite Hnodes, Hlinks.
Qed.

(** X14. The graph a completed load stores has one edge per candidate,
    in order, each with the source, target, relationship and experiment of
    its candidate; its colour is the palette colour the stored colour map
    holds under the key of the experiment, except that an edge whose
    experiment key is [__proto__] carries the prototype object. *)
Theorem X14_loaded_edges uuidv4 h rows st :
  Forall2 (λ c e,
             Edge.source e = Extracted.source c ∧
             Edge.target e = Extracted.target c ∧
             Edge.label e = Extracted.relationship c ∧
             Edge.experiment e = Extracted.experiment c ∧
             if decide (js_text (Extracted.experiment c) = "__proto__")
             then Edge.color e = JsMember "__proto__"
             else ∃ col, Edge.color e = JsString col ∧ col ∈ colors ∧
                         experimentColors (complete_ok uuidv4 h rows st)
                           !! js_text (Extracted.experiment c) = Some col)
          (Processed.edges (processCSVData h rows))
          (Graph.edges (fullGraphData (complete_ok uuidv4 h rows st))).
Proof.
  rewrite loaded_graph. cbn [Graph.edges].
  change (experimentColors (complete_ok uuidv4 h rows st))
    with (Processed.experimentColorMap (processCSVData h rows)).
  assert (Processed.experimentColorMap (processCSVData h rows) !! "__proto__"
          = None) as Hproto
    by (rewrite processed_colorMap; apply build_colorMap_no_proto).
  pose proof (processed_colorMap_is_Some h rows) as Hsome.
  assert (map_Forall (λ _ c, c ∈ colors)
            (Processed.experimentColorMap (processCSVData h rows))) as Hvalues
    by (rewrite processed_colorMap; apply build_colorMap_values).
  set (colorMap := Processed.experimentColorMap (processCSVData h rows)) in *.
  clearbody colorMap.
  apply Forall2_same_length_lookup. split; [by rewrite length_imap |].
  intros k c e Hc He. rewrite list_lookup_imap, Hc in He.
  injection He as <-. cbn [make_edge Edge.source Edge.target Edge.label
                           Edge.experiment Edge.color].
  split_and!; try reflexivity.
  case_decide as Hkey.
  - rewrite Hkey. unfold js_get. by rewrite Hproto.
  - destruct (Hsome c) as [col Hcol];
      [by eapply list_elem_of_lookup_2 | exact Hkey |].
    exists col. rewrite (js_get_own _ _ _ _ Hcol).
    split; [reflexivity |]. split; [| exact Hcol].
    eapply Hvalues. exact Hcol.
Qed.

(** ** The load as a state transition *)

Lemma handleVisualize_invalid_source fetch_text papa_parse uuidv4 h url st :
  ¬ valid_source url →
  handleVisualize fetch_text papa_parse uuidv4 h url st = (st, [AlertInvalidUrl]).
Proof.
  unfold valid_source, handleVisualize.
  by destruct (js_not (JsString url) || negb (endsWith url ".csv")).
Qed.

Lemma handleVisualize_success fetch_text papa_parse uuidv4 h url st csvText :
  valid_source url →
  fetch_text url = Some csvText →
  errors (papa_parse csvText) = [] →
  (handleVisualize fetch_text papa_parse uuidv4 h url st).1 =
  complete_ok uuidv4 h (data (papa_parse csvText)) initialState.
Proof.
  unfold valid_source, handleVisualize. intros -> -> Hok.
  rewrite Hok. reflexivity.
Qed.

(** C1, as the code has it. A load that passed the source check and then
    fails, by a rejected fetch or by parser errors, leaves the full graph,
    the colour map and the selection at the empty values the load installed
    when it started, whatever was loaded before, and clears the loading
    flag: nothing of the failed load is shown. *)
Theorem C1_load_failure_clears_state fetch_text papa_parse uuidv4 h url st :
  valid_source url →
  load_fails fetch_text papa_parse url →
  fullGraphData (handleVisualize fetch_text papa_parse uuidv4 h url st).1
    = Graph.empty ∧
  experimentColors (handleVisualize fetch_text papa_parse uuidv4 h url st).1
    = ∅ ∧
  visibleExperiments (handleVisualize fetch_text papa_parse uuidv4 h url st).1
    = ∅ ∧
  isLoading (handleVisualize fetch_text papa_parse uuidv4 h url st).1 = false.
Proof.
  unfold valid_source, load_fails, handleVisualize. intros -> Hfail.
  destruct Hfail as [-> | (csvText & -> & Herr)]; [done |].
  rewrite bool_decide_eq_true_2; [done |].
  destruct (errors (papa_parse csvText)); [done | cbn; lia].
Qed.


(** The state a started load renders while it waits is the one its
    outcome is written into. *)
Lemma handleVisualize_pending fetch_text papa_parse uuidv4 h url st :
  valid_source url →
  handleVisualize fetch_text papa_parse uuidv4 h url st =
  match fetch_text url with
  | None => (setIsLoading false (pending st), [])
  | Some csvText =>
      if bool_decide (0 < length (errors (papa_parse csvText)))%nat
      then (setIsLoading false (pending st), [AlertCsvError])
      else (complete_ok uuidv4 h (data (papa_parse csvText)) (pending st), [])
  end.
Proof. unfold valid_source, handleVisualize. by intros ->. Qed.

(** * Further properties of the code *)

(** ** More on the graph builder *)

Lemma accepted_candidate h row : accepted h row ↔ is_Some (candidate h row).
Proof.
  unfold accepted, candidate.
  destruct (js_not _ || js_not _ || js_not _ || js_not _).
  - split; [done | by intros [? ?]].
  - split; [by eexists | done].
Qed.

Lemma omap_candidate_filter h (rows : list Row) :
  omap (candidate h) (filter (accepted h) rows) = omap (candidate h) rows.
Proof.
  induction rows as [|row rows IH]; [reflexivity |].
  rewrite filter_cons. destruct (decide (accepted h row)) as [Ha | Ha].
  - change (omap (candidate h) ([row] ++ filter (accepted h) rows) =
            omap (candidate h) ([row] ++ rows)).
    by rewrite !omap_app, IH.
  - rewrite IH. change (row :: rows) with ([row] ++ rows).
    rewrite omap_app. simpl.
    destruct (candidate h row) eqn:Hc; [| reflexivity].
    destruct Ha. apply accepted_candidate. by eexists.
Qed.

Lemma processCSVData_candidates h (rows1 rows2 : list Row) :
  omap (candidate h) rows1 = omap (candidate h) rows2 →
  processCSVData h rows1 = processCSVData h rows2.
Proof.
  intros Heq. unfold processCSVData. by rewrite !foldl_row_step, Heq.
Qed.

(** X1. The builder's result depends on the accepted rows only: it is the
    result for the rows that pass the guard, and when no row passes it the
    result is the empty graph with an empty colour map, not an error. *)
Theorem X1_rejected_rows_are_ignored h rows :
  processCSVData h rows = processCSVData h (filter (accepted h) rows) ∧
  (Forall (λ row, ¬ accepted h row) rows →
   processCSVData h rows = empty_processed).
Proof.
  split.
  - apply processCSVData_candidates. by rewrite omap_candidate_filter.
  - intros Hall.
    transitivity (processCSVData h []); [| reflexivity].
    apply processCSVData_candidates.
    induction Hall as [|row rows Hrow _ IH]; [reflexivity |].
    simpl. destruct (candidate h row) eqn:Hc; [| exact IH].
    destruct Hrow. apply accepted_candidate. by eexists.
Qed.

Lemma processed_nodes_nil h rows :
  Processed.nodes (processCSVData h rows) = [] ↔
  Processed.edges (processCSVData h rows) = [].
Proof.
  split.
  - intros Hn. destruct (Processed.edges _) as [|c cs] eqn:Hc; [reflexivity |].
    assert (Extracted.source c ∈
            Node.id <$> Processed.nodes (processCSVData h rows)) as Hin.
    { apply processed_node_id_elem. exists c. rewrite Hc. split; [left | tauto]. }
    rewrite Hn in Hin. by inversion Hin.
  - intros He. destruct (Processed.nodes _) as [|n ns] eqn:Hn; [reflexivity |].
    assert (Node.id n ∈ Node.id <$> Processed.nodes (processCSVData h rows))
      as Hin by (rewrite Hn; left).
    apply processed_node_id_elem in Hin as (c & Hc & _).
    rewrite He in Hc. by inversion Hc.
Qed.

Lemma processed_colorMap_empty h rows :
  Processed.experimentColorMap (processCSVData h rows) = ∅ ↔
  Forall (λ c, js_text (Extracted.experiment c) = "__proto__")
         (Processed.edges (processCSVData h rows)).
Proof.
  rewrite Forall_forall. split.
  - intros Hm c Hc.
    destruct (decide (js_text (Extracted.experiment c) = "__proto__"))
      as [Hkey | Hkey]; [exact Hkey |].
    destruct (processed_colorMap_is_Some h rows c Hc Hkey) as [x Hx].
    rewrite Hm, lookup_empty in Hx. done.
  - intros Hall. apply map_empty. intros k. apply eq_None_not_Some.
    rewrite processed_colorMap_key. unfold tags_of.
    intros [Hne (v & -> & (c & -> & Hc)%list_elem_of_fmap)%list_elem_of_fmap].
    by apply Hne, Hall.
Qed.

(** X2. The builder returns no nodes exactly when it returns no edges;
    it returns an empty colour map exactly when the experiment of every
    edge it returns has the key [__proto__], in particular when it returns
    no edges. *)
Theorem X2_empty_together h rows :
  (Processed.nodes (processCSVData h rows) = [] ↔
   Processed.edges (processCSVData h rows) = []) ∧
  (Processed.experimentColorMap (processCSVData h rows) = ∅ ↔
   Forall (λ c, js_text (Extracted.experiment c) = "__proto__")
          (Processed.edges (processCSVData h rows))).
Proof. split; [apply processed_nodes_nil | apply processed_colorMap_empty]. Qed.






(** ** More on the load *)

Lemma length_append_String p s :
  String.length (p +:+ s) = (String.length p + String.length s)%nat.
Proof.
  induction p as [|c p IH]; [reflexivity |].
  rewrite append_String. cbn. by rewrite IH.
Qed.

Lemma substring_whole s : substring 0 (String.length s) s = s.
Proof. induction s as [|c s IH]; [reflexivity |]. cbn. by rewrite IH. Qed.

Lemma substring_skip p s m :
  substring (String.length p) m (p +:+ s) = substring 0 m s.
Proof. induction p as [|c p IH]; [reflexivity |]. exact IH. Qed.

Lemma substring_split s n :
  (n ≤ String.length s)%nat →
  s = substring 0 n s +:+ substring n (String.length s - n) s.
Proof.
  revert n. induction s as [|c s IH]; intros n Hn.
  - cbn in Hn. by replace n with 0%nat by lia.
  - destruct n as [|n].
    + cbn [substring Nat.sub String.length]. by rewrite substring_whole.
    + cbn [substring Nat.sub String.length]. rewrite append_String.
      f_equal. apply IH. cbn in Hn. lia.
Qed.

Lemma endsWith_spec s suffix :
  endsWith s suffix = true ↔ ∃ p, s = p +:+ suffix.
Proof.
  unfold endsWith. split.
  - case_decide as Hle; [| done]. intros Heq%String.eqb_eq.
    exists (substring 0 (String.length s - String.length suffix) s).
    pose proof (substring_split s (String.length s - String.length suffix))
      as Hsplit.
    replace (String.length s - (String.length s - String.length suffix))%nat
      with (String.length suffix) in Hsplit by lia.
    rewrite Heq in Hsplit. apply Hsplit. lia.
  - intros [p ->]. rewrite length_append_String.
    rewrite decide_True by lia.
    replace (String.length p + String.length suffix - String.length suffix)%nat
      with (String.length p) by lia.
    rewrite substring_skip, substring_whole. apply String.eqb_refl.
Qed.

(** X10. The load starts exactly when the URL ends in [".csv"]: such a URL
    is never empty, so the emptiness test of the source check adds nothing,
    and a URL with a query string after the extension is turned away. *)
Theorem X10_valid_source_iff url :
  valid_source url ↔ ∃ p, url = p +:+ ".csv".
Proof.
  unfold valid_source. rewrite <- endsWith_spec.
  destruct (endsWith url ".csv") eqn:Hend; cbn.
  - rewrite orb_false_r. split; [done | intros _].
    apply endsWith_spec in Hend as [p ->].
    apply not_true_iff_false. rewrite js_not_string. by destruct p.
  - rewrite orb_true_r. split; done.
Qed.

(** X11. A load that starts overwrites the state it found: whatever was
    displayed before, the state and the alerts after the load are those of
    the same load started from any other state. *)
Theorem X11_started_load_overwrites fetch_text papa_parse uuidv4 h url st1 st2 :
  valid_source url →
  handleVisualize fetch_text papa_parse uuidv4 h url st1 =
  handleVisualize fetch_text papa_parse uuidv4 h url st2.
Proof.
  unfold valid_source, handleVisualize. intros ->.
  destruct (fetch_text url) as [csvText|]; [| reflexivity].
  destruct (bool_decide _); reflexivity.
Qed.

Lemma handleVisualize_alerts fetch_text papa_parse uuidv4 h url st :
  (handleVisualize fetch_text papa_parse uuidv4 h url st).2 =
  if js_not (JsString url) || negb (endsWith url ".csv") then [AlertInvalidUrl]
  else match fetch_text url with
       | None => []
       | Some csvText =>
           if bool_decide (0 < length (errors (papa_parse csvText)))%nat
           then [AlertCsvError] else []
       end.
Proof.
  unfold handleVisualize.
  destruct (js_not (JsString url) || negb (endsWith url ".csv")); [reflexivity |].
  destruct (fetch_text url) as [csvText|]; [| reflexivity].
  destruct (bool_decide _); reflexivity.
Qed.

(** X12. Which alert a load raises: the invalid-URL alert exactly when the
    source check fails, the CSV alert exactly when the load started, the
    fetch answered and the parser reported errors, and none otherwise; a
    rejected fetch, in particular, raises no alert. *)
Theorem X12_alerts fetch_text papa_parse uuidv4 h url st :
  ((handleVisualize fetch_text papa_parse uuidv4 h url st).2 = [AlertInvalidUrl]
   ↔ ¬ valid_source url) ∧
  ((handleVisualize fetch_text papa_parse uuidv4 h url st).2 = [AlertCsvError]
   ↔ valid_source url ∧
     ∃ csvText, fetch_text url = Some csvText ∧
                errors (papa_parse csvText) ≠ []) ∧
  ((handleVisualize fetch_text papa_parse uuidv4 h url st).2 = []
   ↔ valid_source url ∧
     (fetch_text url = None ∨
      ∃ csvText, fetch_text url = Some csvText ∧
                 errors (papa_parse csvText) = [])).
Proof.
  rewrite handleVisualize_alerts. unfold valid_source.
  destruct (js_not (JsString url) || negb (endsWith url ".csv")).
  { split_and!; split; first [done | by intros [? _]]. }
  destruct (fetch_text url) as [csvText|].
  - destruct (errors (papa_parse csvText)) as [|err errs] eqn:Herr.
    + rewrite bool_decide_eq_false_2 by (cbn; lia). split_and!; split.
      * done.
      * intros H. by destruct H.
      * done.
      * intros [_ (txt & [= <-] & Hne)]. by rewrite Herr in Hne.
      * intros _. split; [done |]. right. by exists csvText.
      * done.
    + rewrite bool_decide_eq_true_2 by (cbn; lia). split_and!; split.
      * done.
      * intros H. by destruct H.
      * intros _. split; [done |]. exists csvText. by rewrite Herr.
      * done.
      * done.
      * intros [_ [? | (txt & [= <-] & Hnil)]]; [done |].
        by rewrite Herr in Hnil.
  - split_and!; split.
    + done.
    + intros H. by destruct H.
    + done.
    + by intros [_ (txt & ? & _)].
    + intros _. split; [done | by left].
    + done.
Qed.

(** X13. Once a load has started, it always ends with the loading flag
    cleared, whether it succeeds, the fetch is rejected or the parser
    reports errors. *)
Theorem X13_loading_flag_cleared fetch_text papa_parse uuidv4 h url st :
  valid_source url →
  isLoading (handleVisualize fetch_text papa_parse uuidv4 h url st).1 = false.
Proof.
  unfold valid_source, handleVisualize. intros ->.
  destruct (fetch_text url) as [csvText|]; [| reflexivity].
  destruct (bool_decide _); reflexivity.
Qed.

Lemma uuid_tally_inj i j : uuid_tally i = uuid_tally j → i = j.
Proof.
  revert j. induction i as [|i IH]; intros [|j]; cbn; try done.
  intros [= Heq]. f_equal. by apply IH.
Qed.

(** X15. When the identifier source never repeats a value, the edges of
    the graph a completed load stores have pairwise different ids, rows
    that are copies of one another included. *)
Theorem X15_edge_ids_distinct uuidv4 h rows st :
  (∀ i j, uuidv4 i = uuidv4 j → i = j) →
  NoDup (Edge.id <$> Graph.edges (fullGraphData (complete_ok uuidv4 h rows st))).
Proof.
  intros Hinj. rewrite loaded_graph. cbn [Graph.edges].
  apply NoDup_alt. intros i j x.
  rewrite !list_lookup_fmap, !list_lookup_imap.
  destruct (Processed.edges (processCSVData h rows) !! i) as [ci|]; [| done].
  destruct (Processed.edges (processCSVData h rows) !! j) as [cj|]; [| done].
  cbn. intros [= <-] [= Heq]. apply Hinj. symmetry. exact Heq.
Qed.


(** ** More on the visibility filter *)

Lemma view_links_closed g sel :
  closed_graph g →
  View.links (filteredGraphData g sel) = filter (selected sel) (Graph.edges g).
Proof.
  intros Hg. destruct (decide (Graph.nodes g = [])) as [Hn | Hn].
  - rewrite view_of_no_nodes by assumption.
    by rewrite (closed_graph_no_nodes g Hg Hn).
  - by apply view_links.
Qed.

Lemma view_links_sublist g sel :
  View.links (filteredGraphData g sel) `sublist_of` Graph.edges g.
Proof.
  destruct (decide (Graph.nodes g = [])) as [Hn | Hn].
  - rewrite view_of_no_nodes by assumption. apply sublist_nil_l.
  - rewrite view_links by assumption. apply sublist_filter.
Qed.

Lemma view_nodes_sublist g sel :
  View.nodes (filteredGraphData g sel) `sublist_of` Graph.nodes g.
Proof. rewrite view_nodes. apply sublist_filter. Qed.

Lemma view_closed g sel :
  closed_graph g → closed_graph (view_graph (filteredGraphData g sel)).
Proof.
  intros Hg. unfold closed_graph, view_graph. cbn [Graph.nodes Graph.edges].
  apply Forall_forall. intros e He.
  assert (e ∈ Graph.edges g) as Hin
    by (eapply elem_of_sublist; [exact He | apply view_links_sublist]).
  unfold closed_graph in Hg. rewrite Forall_forall in Hg.
  destruct (Hg e Hin) as [Hs Ht].
  assert (∀ x, x ∈ Node.id <$> Graph.nodes g →
               (Edge.source e = x ∨ Edge.target e = x) →
               x ∈ Node.id <$> View.nodes (filteredGraphData g sel)) as Hkeep.
  { intros x (n & -> & Hn)%list_elem_of_fmap Hinc.
    apply list_elem_of_fmap_2. rewrite view_nodes.
    apply list_elem_of_filter. split; [| exact Hn].
    apply Exists_exists. by exists e. }
  split; apply Hkeep; tauto.
Qed.

(** X18. The view is taken from the full graph and adds nothing: its nodes
    are a sub-sequence of the graph's nodes and its links a sub-sequence of
    the graph's edges, in their order. *)
Theorem X18_view_within_graph g (sel : gmap string bool) :
  View.nodes (filteredGraphData g sel) `sublist_of` Graph.nodes g ∧
  View.links (filteredGraphData g sel) `sublist_of` Graph.edges g.
Proof. split; [apply view_nodes_sublist | apply view_links_sublist]. Qed.

(** X19. The view of a graph whose edges all name nodes of the graph is
    closed too: both ends of every link handed to the renderer are nodes of
    the view. *)
Theorem X19_view_has_no_dangling_links g (sel : gmap string bool) :
  closed_graph g →
  Forall (λ e, Edge.source e ∈ Node.id <$> View.nodes (filteredGraphData g sel) ∧
               Edge.target e ∈ Node.id <$> View.nodes (filteredGraphData g sel))
         (View.links (filteredGraphData g sel)).
Proof. intros Hg. exact (view_closed g sel Hg). Qed.

(** X20. Filtering is idempotent: the view of a closed graph, read as a
    graph and filtered again under the same selection, is that view. *)
Theorem X20_filter_idempotent g (sel : gmap string bool) :
  closed_graph g →
  filteredGraphData (view_graph (filteredGraphData g sel)) sel =
  filteredGraphData g sel.
Proof.
  intros Hg.
  pose proof (view_closed g sel Hg) as Hclosed.
  pose proof (view_nodes g sel) as Hnodes.
  pose proof (view_links_closed g sel Hg) as Hlinks.
  set (v := filteredGraphData g sel) in *.
  assert (filter (selected sel) (View.links v) = View.links v) as Hsame.
  { apply filter_all. intros e He. rewrite Hlinks in He.
    by apply list_elem_of_filter in He as [? _]. }
  destruct (decide (View.nodes v = [])) as [Hn | Hn].
  - rewrite view_of_no_nodes by exact Hn.
    pose proof (closed_graph_no_nodes _ Hclosed Hn) as Hl.
    destruct v as [vn vl]. cbn in Hn, Hl. by rewrite Hn, Hl.
  - pose proof (view_nodes (view_graph v) sel) as Hnodes'.
    pose proof (view_links (view_graph v) sel Hn) as Hlinks'.
    cbn [view_graph Graph.nodes Graph.edges] in Hnodes', Hlinks'.
    rewrite Hsame in Hlinks'. rewrite Hlinks' in Hnodes'.
    rewrite filter_all in Hnodes'.
    + destruct (filteredGraphData (view_graph v) sel) as [n' l'].
      destruct v as [vn vl]. cbn in *. by rewrite Hnodes', Hlinks'.
    + intros n Hin. rewrite Hnodes in Hin.
      by apply list_elem_of_filter in Hin as [? _].
Qed.

Lemma filter_nil_iff {A} (P : A → Prop) `{!∀ x, Decision (P x)} (l : list A) :
  filter P l = [] ↔ Forall (λ x, ¬ P x) l.
Proof.
  induction l as [|x l IH]; [by split |].
  rewrite filter_cons, Forall_cons. destruct (decide (P x)); [| tauto].
  split; [done | tauto].
Qed.

Lemma view_nodes_nil g sel :
  closed_graph g →
  View.nodes (filteredGraphData g sel) = [] ↔
  Forall (λ e, ¬ selected sel e) (Graph.edges g).
Proof.
  intros Hg. rewrite <- filter_nil_iff, <- view_links_closed by assumption.
  split.
  - intros Hn. exact (closed_graph_no_nodes _ (view_closed g sel Hg) Hn).
  - intros Hl. rewrite view_nodes, Hl.
    apply filter_nil_iff, Forall_forall. intros n _ Hex. by inversion Hex.
Qed.

(** X21. The view of a closed graph is empty exactly when the selection
    maps the experiment of none of the graph's edges to [true]: with every
    experiment switched off, and with a selection that has no entries at
    all, nothing is drawn. *)
Theorem X21_empty_view g (sel : gmap string bool) :
  closed_graph g →
  (View.nodes (filteredGraphData g sel) = [] ↔
   Forall (λ e, sel !! js_text (Edge.experiment e) ≠ Some true) (Graph.edges g)) ∧
  (View.links (filteredGraphData g sel) = [] ↔
   Forall (λ e, sel !! js_text (Edge.experiment e) ≠ Some true) (Graph.edges g)).
Proof.
  intros Hg. split; [exact (view_nodes_nil g sel Hg) |].
  rewrite view_links_closed by assumption. apply filter_nil_iff.
Qed.

Lemma filter_ext_elem {A} (P Q : A → Prop)
    `{!∀ x, Decision (P x)} `{!∀ x, Decision (Q x)} (l : list A) :
  Forall (λ x, P x ↔ Q x) l → filter P l = filter Q l.
Proof.
  induction 1 as [|x l Hx _ IH]; [reflexivity |].
  rewrite !filter_cons, IH.
  destruct (decide (P x)), (decide (Q x)); tauto || reflexivity.
Qed.

(** X22. The view depends on the selection only through the experiments
    that occur in the graph: two selections that agree on the experiment of
    every edge give the same view, whatever other keys they hold. *)
Theorem X22_selection_relevance g (s1 s2 : gmap string bool) :
  Forall (λ e, s1 !! js_text (Edge.experiment e) = s2 !! js_text (Edge.experiment e))
         (Graph.edges g) →
  filteredGraphData g s1 = filteredGraphData g s2.
Proof.
  intros Hagree. unfold filteredGraphData.
  destruct (bool_decide _); [reflexivity |].
  cbn zeta.
  match goal with
  | |- context [filter ?P (Graph.edges g)] =>
      set (visible1 := filter P (Graph.edges g))
  end.
  match goal with
  | |- context [filter ?P (Graph.edges g)] =>
      set (visible2 := filter P (Graph.edges g))
  end.
  assert (visible1 = visible2) as ->; [| reflexivity].
  subst visible1 visible2.
  apply filter_ext_elem. eapply Forall_impl; [exact Hagree |].
  intros e He. cbn. rewrite !js_get_strict_true. by rewrite He.
Qed.


(** ** What holds in every state of the page *)

Lemma complete_ok_consistent uuidv4 h rows st :
  consistent (complete_ok uuidv4 h rows st).
Proof.
  split_and!.
  - apply loaded_graph_closed.
  - rewrite loaded_graph. cbn [Graph.nodes].
    rewrite processed_node_ids. apply push_nodes_NoDup, NoDup_nil_2.
  - apply loaded_no_isolated.
  - intros k.
    change (visibleExperiments (complete_ok uuidv4 h rows st))
      with (initialVisibility (Processed.experimentColorMap (processCSVData h rows))).
    change (experimentColors (complete_ok uuidv4 h rows st))
      with (Processed.experimentColorMap (processCSVData h rows)).
    rewrite initialVisibility_processed.
    destruct (_ !! k); cbn; split; intros [? ?]; done || by eexists.
  - intros k. rewrite loaded_graph. cbn [Graph.edges].
    change (experimentColors (complete_ok uuidv4 h rows st))
      with (Processed.experimentColorMap (processCSVData h rows)).
    rewrite processed_colorMap_key. unfold tags_of.
    split; intros [Hne Hk]; (split; [exact Hne |]).
    + apply list_elem_of_fmap in Hk
        as (v & -> & (c & -> & Hc)%list_elem_of_fmap).
      destruct (loaded_edge_intro uuidv4
                  (Processed.experimentColorMap (processCSVData h rows)) _ c Hc)
        as (e & He & _ & _ & Hexp).
      exists e. by rewrite Hexp.
    + destruct Hk as (e & (c & Hc & _ & _ & _ & Hexp & _)%loaded_edge_inv & <-).
      rewrite Hexp. by do 2 apply list_elem_of_fmap_2.
  - rewrite loaded_graph. cbn [Graph.edges]. apply Forall_forall.
    intros e (c & _ & _ & _ & _ & Hexp & Hcol)%loaded_edge_inv.
    rewrite Hcol, Hexp. reflexivity.
  - done.
Qed.

Lemma cleared_consistent st :
  fullGraphData st = Graph.empty → experimentColors st = ∅ →
  visibleExperiments st = ∅ → consistent st.
Proof.
  intros Hg Hc Hv. unfold consistent. rewrite Hg, Hc, Hv.
  split_and!; try done.
  - apply empty_graph_closed.
  - cbn. apply NoDup_nil_2.
  - intros k. rewrite !lookup_empty. split; by intros [? ?].
  - intros k. rewrite lookup_empty. split; [by intros [? ?] |].
    intros [_ (e & He & _)]. by inversion He.
Qed.

Lemma ui_reachable_consistent st : ui_reachable st → consistent st.
Proof.
  induction 1 as [| url st _ IH _
                  | fetch_text papa_parse uuidv4 h url st _ IH
                  | experiment st _ IH Hkey].
  - by apply cleared_consistent.
  - by apply cleared_consistent.
  - unfold handleVisualize.
    destruct (js_not (JsString url) || negb (endsWith url ".csv")); [exact IH |].
    destruct (fetch_text url) as [csvText|]; [| by apply cleared_consistent].
    destruct (bool_decide _); [by apply cleared_consistent |].
    apply complete_ok_consistent.
  - destruct IH as (H1 & H2 & H3 & H4 & H5 & H6 & H7).
    split_and!; try assumption.
    + intros k. cbn. unfold toggleExperimentVisibility.
      destruct (decide (experiment = k)) as [-> | Hne].
      * rewrite lookup_insert_eq. split; [done | by eexists].
      * rewrite lookup_insert_ne by done. apply H4.
    + cbn. intros Hload. destruct (H7 Hload) as (_ & Hempty & _).
      rewrite Hempty, lookup_empty in Hkey. by destruct Hkey.
Qed.

(** X16. In every state of the page, the one rendered while a load waits
    included, the full graph is sound: each edge names two of its nodes, no
    two nodes share an id, and every node is the source or the target of an
    edge; and the loading flag is on only while the graph, the colour map
    and the selection are empty. *)
Theorem X16_graph_sound_in_every_state st :
  ui_reachable st →
  closed_graph (fullGraphData st) ∧
  NoDup (Node.id <$> Graph.nodes (fullGraphData st)) ∧
  Forall (λ n, Exists (incident n) (Graph.edges (fullGraphData st)))
         (Graph.nodes (fullGraphData st)) ∧
  (isLoading st = true →
   fullGraphData st = Graph.empty ∧ experimentColors st = ∅ ∧
   visibleExperiments st = ∅).
Proof.
  intros (H1 & H2 & H3 & _ & _ & _ & H7)%ui_reachable_consistent. done.
Qed.

(** X17. In every state of the page, the legend, the selection and the
    graph agree: the selection has a boolean for exactly the keys of the
    colour map, these keys are exactly the experiment keys of the edges
    other than [__proto__], and every edge carries what the colour map
    gives for its experiment. A legend chip therefore never toggles a key
    the selection lacks. *)
Theorem X17_legend_selection_graph_agree st :
  ui_reachable st →
  (∀ k, is_Some (visibleExperiments st !! k) ↔
        is_Some (experimentColors st !! k)) ∧
  (∀ k, is_Some (experimentColors st !! k) ↔
        k ≠ "__proto__" ∧
        ∃ e, e ∈ Graph.edges (fullGraphData st) ∧
             js_text (Edge.experiment e) = k) ∧
  Forall (λ e, Edge.color e =
               js_get JsString (experimentColors st)
                      (js_text (Edge.experiment e)))
         (Graph.edges (fullGraphData st)).
Proof.
  intros (_ & _ & _ & H4 & H5 & H6 & _)%ui_reachable_consistent. done.
Qed.

Lemma js_truthy_text v : js_truthy v = true → js_text v ≠ "".
Proof.
  destruct v as [|s|[|]|name]; cbn; try done.
  - by case_decide.
  - intros _. by case_decide.
Qed.

Lemma candidate_tag_nonempty h row c :
  candidate h row = Some c → js_text (Extracted.experiment c) ≠ "".
Proof.
  unfold candidate. destruct (_ || _); [done |]. intros [= <-]. cbn.
  apply js_truthy_text. unfold js_or.
  by destruct (js_truthy (js_get JsString row (experimentHeader h))) eqn:Ht.
Qed.

Lemma settled_keys_nonempty st :
  ui_reachable st → map_Forall (λ k _, k ≠ "") (experimentColors st).
Proof.
  induction 1 as [| url st _ IH _
                  | fetch_text papa_parse uuidv4 h url st _ IH
                  | experiment st _ IH Hkey].
  - apply map_Forall_empty.
  - apply map_Forall_empty.
  - unfold handleVisualize.
    destruct (js_not (JsString url) || negb (endsWith url ".csv")); [exact IH |].
    destruct (fetch_text url) as [csvText|]; [| apply map_Forall_empty].
    destruct (bool_decide _); [apply map_Forall_empty |].
    cbn [fst complete_ok experimentColors setIsLoading setFullGraphData
         setExperimentColors].
    intros k col Hk.
    assert (k ≠ "__proto__" ∧
            k ∈ js_text <$> tags_of h (data (papa_parse csvText)))
      as [_ (v & -> & (c & -> & Hc)%list_elem_of_fmap)%list_elem_of_fmap].
    { apply processed_colorMap_key. by eexists. }
    rewrite processed_edges in Hc.
    apply list_elem_of_omap in Hc as (row & _ & Hc).
    by eapply candidate_tag_nonempty.
  - exact IH.
Qed.

(** X30. In every state of the page, no key of the colour map is
    the empty text, so a legend chip always shows its experiment tag: the
    fallback to ["undefined"] in the chip label is never taken. *)
Theorem X30_chip_label_is_key st :
  ui_reachable st →
  map_Forall (λ k _, k ≠ "" ∧ chipLabel k = k) (experimentColors st).
Proof.
  intros Hst%settled_keys_nonempty k c Hk.
  pose proof (Hst k c Hk) as Hne. cbn in Hne.
  split; [exact Hne |]. unfold chipLabel. cbn. by case_decide.
Qed.

(** ** Toggling an experiment *)

(** X23. Toggling a key twice gives the selection back exactly when the
    selection had the key. After one toggle a key reads [true] exactly when
    it read [false] before or was absent and is not the name of a member of
    [Object.prototype]; it reads [false] exactly when it read [true] before
    or was absent and is such a name, the inherited member being truthy. *)
Theorem X23_toggle_twice k (prev : gmap string bool) :
  (toggleExperimentVisibility k (toggleExperimentVisibility k prev) = prev ↔
   is_Some (prev !! k)) ∧
  (toggleExperimentVisibility k prev !! k = Some true ↔
   prev !! k = Some false ∨
   (prev !! k = None ∧ k ∉ object_prototype_members)) ∧
  (toggleExperimentVisibility k prev !! k = Some false ↔
   prev !! k = Some true ∨
   (prev !! k = None ∧ k ∈ object_prototype_members)).
Proof.
  unfold toggleExperimentVisibility.
  rewrite !lookup_insert_eq, insert_insert_eq. split_and!.
  - split.
    + intros Heq. apply (f_equal (.!! k)) in Heq.
      rewrite lookup_insert_eq in Heq. rewrite <- Heq. by eexists.
    + intros [b Hb]. unfold js_get.
      rewrite lookup_insert_eq, Hb. unfold js_not. cbn.
      rewrite negb_involutive. by apply insert_id.
  - unfold js_get. destruct (prev !! k) as [[|]|]; cbn.
    + split; [done | intros [? | [? _]]; done].
    + split; [by left | done].
    + case_bool_decide; cbn; split; try done.
      * intros [? | [_ ?]]; done.
      * intros _. by right.
  - unfold js_get. destruct (prev !! k) as [[|]|]; cbn.
    + split; [by left | done].
    + split; [done | intros [? | [? _]]; done].
    + case_bool_decide; cbn; split; try done.
      * intros _. by right.
      * intros [? | [_ ?]]; done.
Qed.

(** X24. Toggling an experiment changes the links of that experiment and
    no others, provided the selection has the key or the key is not the
    name of a member of [Object.prototype]: in the view of a closed graph,
    an edge of the toggled experiment is a link after the toggle exactly
    when it was not one before, and an edge of any other experiment is a
    link after the toggle exactly when it was one before. *)
Theorem X24_toggle_flips_one_experiment g k (sel : gmap string bool) :
  closed_graph g →
  (sel !! k = None → k ∉ object_prototype_members) →
  Forall (λ e,
            if decide (js_text (Edge.experiment e) = k)
            then e ∈ View.links (filteredGraphData g (toggleExperimentVisibility k sel))
                 ↔ e ∉ View.links (filteredGraphData g sel)
            else e ∈ View.links (filteredGraphData g (toggleExperimentVisibility k sel))
                 ↔ e ∈ View.links (filteredGraphData g sel))
         (Graph.edges g).
Proof.
  intros Hg Hkey. rewrite !view_links_closed by assumption.
  apply Forall_forall. intros e He.
  case_decide as Hk; rewrite !list_elem_of_filter;
    unfold selected, toggleExperimentVisibility.
  - rewrite Hk, lookup_insert_eq. unfold js_get.
    destruct (sel !! k) as [[|]|] eqn:Hsel; cbn.
    + split; [by intros [? _] | intros Hno; destruct Hno; by split].
    + split; [by intros _ [? _] | by intros _; split].
    + rewrite bool_decide_eq_false_2 by (by apply Hkey). cbn.
      split; [by intros _ [? _] | by intros _; split].
  - rewrite lookup_insert_ne by done. tauto.
Qed.

(** ** What the page shows *)

(** X25. The three boxes of the canvas exclude one another: the prompt to
    load, the "all filtered out" notice and the graph are never shown
    together in any state, and whenever the progress bar is not shown
    exactly one of them is. *)
Theorem X25_panels_exclusive st :
  showsPrompt st && showsFilteredOut st = false ∧
  showsPrompt st && showsGraph st = false ∧
  showsFilteredOut st && showsGraph st = false ∧
  showsProgress st || showsPrompt st || showsFilteredOut st || showsGraph st = true.
Proof.
  unfold showsProgress, showsPrompt, showsFilteredOut, showsGraph.
  pose proof (sublist_length _ _
                (view_nodes_sublist (fullGraphData st) (visibleExperiments st)))
    as Hle.
  set (v := length (View.nodes (filteredGraphData (fullGraphData st)
                                  (visibleExperiments st)))) in *.
  set (n := length (Graph.nodes (fullGraphData st))) in *.
  destruct (isLoading st); cbn;
    repeat case_bool_decide; cbn; split_and!; try reflexivity; lia.
Qed.


(** X29. The node colour is always a colour of the palette, whatever the
    model text: the index is reduced modulo the palette's length, so the
    lookup cannot miss. *)
Theorem X29_nodeColor_in_palette (node : Node.t) :
  ∃ c, nodeColor node = Some c ∧ c ∈ colors.
Proof.
  unfold nodeColor. eexists. split; [apply colors_at_lookup |].
  apply colors_at_in_palette.
Qed.

Lemma omap_candidate_nil h (rows : list Row) :
  omap (candidate h) rows = [] ↔ Forall (λ row, ¬ accepted h row) rows.
Proof.
  induction rows as [|row rows IH]; [by split |].
  rewrite Forall_cons, <- IH, accepted_candidate.
  change (row :: rows) with ([row] ++ rows). rewrite omap_app. simpl.
  destruct (candidate h row) as [c|].
  - split; [done |]. intros [Hno _]. destruct Hno. by eexists.
  - split; [| tauto]. intros Hnil. split; [by intros [? ?] | exact Hnil].
Qed.

Lemma length_zero_nil {A} (l : list A) : length l = 0%nat ↔ l = [].
Proof. by destruct l. Qed.

Lemma Exists_iff_not_Forall_not {A} (P : A → Prop)
    `{!∀ x, Decision (P x)} (l : list A) :
  Exists P l ↔ ¬ Forall (λ x, ¬ P x) l.
Proof.
  induction l as [|x l IH].
  - split; [by inversion 1 | intros Hno; destruct Hno; constructor].
  - rewrite Exists_cons, Forall_cons, IH.
    destruct (decide (P x)); [tauto |].
    destruct (decide (Forall (λ y, ¬ P y) l)); tauto.
Qed.


Lemma loaded_graph_edges uuidv4 h rows st :
  Graph.edges (fullGraphData (complete_ok uuidv4 h rows st)) =
  imap (make_edge uuidv4 (Processed.experimentColorMap (processCSVData h rows)))
       (Processed.edges (processCSVData h rows)).
Proof. reflexivity. Qed.

(** X27. Right after a completed load the page shows the graph exactly
    when some edge has an experiment key other than [__proto__], and the
    legend with it; it shows the prompt to load exactly when no row was
    accepted, as if nothing had been loaded; and it shows the "all
    filtered out" notice exactly when rows were accepted and the
    experiment key of every edge is [__proto__]. *)
Theorem X27_page_after_load uuidv4 h rows st :
  (showsGraph (complete_ok uuidv4 h rows st) = true ↔
   Exists (λ c, js_text (Extracted.experiment c) ≠ "__proto__")
          (Processed.edges (processCSVData h rows))) ∧
  showsLegend (complete_ok uuidv4 h rows st) =
    showsGraph (complete_ok uuidv4 h rows st) ∧
  (showsPrompt (complete_ok uuidv4 h rows st) = true ↔
   Forall (λ row, ¬ accepted h row) rows) ∧
  (showsFilteredOut (complete_ok uuidv4 h rows st) = true ↔
   Exists (accepted h) rows ∧
   Forall (λ c, js_text (Extracted.experiment c) = "__proto__")
          (Processed.edges (processCSVData h rows))).
Proof.
  pose proof (loaded_graph_closed uuidv4 h rows st) as Hclosed.
  pose proof (view_nodes_nil _ (visibleExperiments (complete_ok uuidv4 h rows st))
                Hclosed) as Hview.
  assert (Graph.nodes (fullGraphData (complete_ok uuidv4 h rows st)) = [] ↔
          Forall (λ row, ¬ accepted h row) rows) as Hnodes.
  { rewrite loaded_graph. cbn [Graph.nodes].
    by rewrite processed_nodes_nil, processed_edges, omap_candidate_nil. }
  assert (View.nodes (filteredGraphData
            (fullGraphData (complete_ok uuidv4 h rows st))
            (visibleExperiments (complete_ok uuidv4 h rows st))) = [] ↔
          Forall (λ c, js_text (Extracted.experiment c) = "__proto__")
                 (Processed.edges (processCSVData h rows))) as Hvnodes.
  { rewrite Hview, !Forall_forall. split.
    - intros Hnone c Hc.
      destruct (loaded_edge_intro uuidv4
                  (Processed.experimentColorMap (processCSVData h rows)) _ c Hc)
        as (e & He & _ & _ & Hexp).
      rewrite <- (loaded_graph_edges uuidv4 h rows st) in He.
      destruct (decide (js_text (Extracted.experiment c) = "__proto__"))
        as [Hkey | Hkey]; [exact Hkey |].
      destruct (Hnone e He). apply loaded_edge_selected; [exact He |].
      by rewrite Hexp.
    - intros Hall e He Hsel.
      apply loaded_edge_selected in Hsel; [| exact He].
      rewrite loaded_graph_edges in He.
      apply loaded_edge_inv in He as (c & Hc & _ & _ & _ & Hexp & _).
      rewrite Hexp in Hsel. by apply Hsel, Hall. }
  assert (showsGraph (complete_ok uuidv4 h rows st) = true ↔
          Exists (λ c, js_text (Extracted.experiment c) ≠ "__proto__")
                 (Processed.edges (processCSVData h rows))) as Hgraph.
  { unfold showsGraph. rewrite bool_decide_eq_true.
    rewrite (Exists_iff_not_Forall_not
               (λ c, js_text (Extracted.experiment c) ≠ "__proto__")).
    assert (Forall (λ c, ¬ js_text (Extracted.experiment c) ≠ "__proto__")
                   (Processed.edges (processCSVData h rows)) ↔
            Forall (λ c, js_text (Extracted.experiment c) = "__proto__")
                   (Processed.edges (processCSVData h rows))) as ->.
    { apply Forall_proper; [| reflexivity]. intros c.
      destruct (decide (js_text (Extracted.experiment c) = "__proto__")); tauto. }
    rewrite <- Hvnodes, <- length_zero_nil. lia. }
  split_and!.
  - exact Hgraph.
  - apply eq_true_iff_eq. rewrite Hgraph. unfold showsLegend.
    rewrite bool_decide_eq_true, length_fmap, length_map_to_list.
    change (experimentColors (complete_ok uuidv4 h rows st))
      with (Processed.experimentColorMap (processCSVData h rows)).
    rewrite (Exists_iff_not_Forall_not
               (λ c, js_text (Extracted.experiment c) ≠ "__proto__")).
    assert (Forall (λ c, ¬ js_text (Extracted.experiment c) ≠ "__proto__")
                   (Processed.edges (processCSVData h rows)) ↔
            Forall (λ c, js_text (Extracted.experiment c) = "__proto__")
                   (Processed.edges (processCSVData h rows))) as ->.
    { apply Forall_proper; [| reflexivity]. intros c.
      destruct (decide (js_text (Extracted.experiment c) = "__proto__")); tauto. }
    rewrite <- processed_colorMap_empty, <- map_size_empty_iff. lia.
  - unfold showsPrompt. rewrite andb_true_r, bool_decide_eq_true.
    by rewrite length_zero_nil.
  - unfold showsFilteredOut.
    rewrite andb_true_r, andb_true_iff, !bool_decide_eq_true.
    rewrite length_zero_nil, Hvnodes.
    rewrite (Exists_iff_not_Forall_not (accepted h)), <- Hnodes,
            <- length_zero_nil.
    split; intros [? ?]; split; assumption || lia.
Qed.

Lemma settled_nodes_nil st :
  consistent st →
  Graph.nodes (fullGraphData st) = [] ↔ Graph.edges (fullGraphData st) = [].
Proof.
  intros (Hclosed & _ & Hiso & _). split.
  - by apply closed_graph_no_nodes.
  - intros He. rewrite He in Hiso.
    destruct (Graph.nodes _) as [|n ns]; [reflexivity |].
    apply Forall_cons in Hiso as [Hex _]. by inversion Hex.
Qed.

(** X28. In every state of the page, the legend is shown only when a
    graph is loaded and the progress bar is off, that is never together
    with the prompt to load or the progress bar; and the "all filtered out"
    notice is shown exactly when the graph has nodes, the loading flag is
    off and no entry of the selection is [true]. *)
Theorem X28_page_in_every_state st :
  ui_reachable st →
  showsLegend st && (showsPrompt st || showsProgress st) = false ∧
  (showsFilteredOut st = true ↔
   Graph.nodes (fullGraphData st) ≠ [] ∧ isLoading st = false ∧
   map_Forall (λ _ visible, visible = false) (visibleExperiments st)).
Proof.
  intros Hst%ui_reachable_consistent.
  pose proof (settled_nodes_nil st Hst) as Hnil.
  destruct Hst as (Hclosed & _ & _ & Hkeys & Htags & _ & Hload).
  assert (showsLegend st = true →
          Graph.nodes (fullGraphData st) ≠ [] ∧ isLoading st = false)
    as Hlegend.
  { unfold showsLegend.
    rewrite bool_decide_eq_true, length_fmap, length_map_to_list, Hnil.
    intros Hsize.
    destruct (map_choose (experimentColors st)) as (k & c & Hk).
    { intros Hm. rewrite Hm, map_size_empty in Hsize. lia. }
    split.
    - intros Hedges.
      destruct (proj1 (Htags k)) as [_ (e & He & _)]; [by eexists |].
      rewrite Hedges in He. by inversion He.
    - destruct (isLoading st); [| reflexivity].
      destruct (Hload eq_refl) as (_ & Hempty & _).
      rewrite Hempty, lookup_empty in Hk. done. }
  split.
  - destruct (showsLegend st); [| reflexivity].
    destruct (Hlegend eq_refl) as [Hn Hl].
    unfold showsPrompt, showsProgress. rewrite Hl.
    rewrite bool_decide_eq_false_2; [reflexivity |].
    by rewrite length_zero_nil.
  - unfold showsFilteredOut.
    rewrite !andb_true_iff, !bool_decide_eq_true, negb_true_iff.
    rewrite length_zero_nil, (view_nodes_nil _ _ Hclosed).
    assert ((0 < length (Graph.nodes (fullGraphData st)))%nat ↔
            Graph.nodes (fullGraphData st) ≠ []) as ->.
    { rewrite <- length_zero_nil. lia. }
    assert (Forall (λ e, ¬ selected (visibleExperiments st) e)
                   (Graph.edges (fullGraphData st)) ↔
            map_Forall (λ _ visible, visible = false) (visibleExperiments st))
      as ->; [| tauto].
    rewrite Forall_forall. unfold selected. split.
    + intros Hnone k b Hk.
      destruct (proj1 (Htags k)) as [_ (e & He & <-)].
      { apply Hkeys. by eexists. }
      destruct b; [| reflexivity]. by destruct (Hnone e He).
    + intros Hoff e He Hsel. by apply Hoff in Hsel.
Qed.

Lemma processed_node_shape h rows n :
  n ∈ Processed.nodes (processCSVData h rows) →
  n = make_node (Node.id n) ∧ has_colon (Node.id n) = true.
Proof.
  intros Hn.
  assert (has_colon (Node.id n) = true) as Hcolon.
  { apply (list_elem_of_fmap_2 Node.id) in Hn.
    apply processed_node_id_elem in Hn as (c & Hc & Hid).
    rewrite processed_edges in Hc.
    apply list_elem_of_omap in Hc as (row & _ & Hrow).
    apply candidate_ids_have_colon in Hrow as [Hs Ht].
    destruct Hid as [-> | ->]; assumption. }
  split; [| exact Hcolon].
  unfold processCSVData in Hn. cbn [Processed.nodes] in Hn.
  by apply list_elem_of_fmap in Hn as (nodeId & -> & _).
Qed.

Lemma nodeLabel_make_node nodeId :
  has_colon nodeId = true →
  before_first_colon (nodeLabel (make_node nodeId)) = before_first_colon nodeId ∧
  after_first_colon (nodeLabel (make_node nodeId)) =
    " " +:+ after_first_colon nodeId.
Proof.
  intros Hcolon. unfold nodeLabel, make_node. cbn [Node.model Node.label].
  rewrite split_colon_hd, split_colon_tl by assumption.
  change (before_first_colon nodeId +:+ ": " +:+ after_first_colon nodeId)
    with (before_first_colon nodeId +:+ ":" +:+ (" " +:+ after_first_colon nodeId)).
  apply first_colon_unique, before_first_colon_free.
Qed.

(** X26. The hover labels tell the nodes of a built graph apart: two nodes
    the builder returns with the same label text are the same node. *)
Theorem X26_nodeLabel_injective h rows n1 n2 :
  n1 ∈ Processed.nodes (processCSVData h rows) →
  n2 ∈ Processed.nodes (processCSVData h rows) →
  nodeLabel n1 = nodeLabel n2 →
  n1 = n2.
Proof.
  intros [Hn1 Hc1]%processed_node_shape [Hn2 Hc2]%processed_node_shape Hlabel.
  rewrite Hn1, Hn2 in Hlabel.
  destruct (nodeLabel_make_node _ Hc1) as [Hb1 Ha1].
  destruct (nodeLabel_make_node _ Hc2) as [Hb2 Ha2].
  rewrite Hlabel in Hb1, Ha1.
  assert (after_first_colon (Node.id n1) = after_first_colon (Node.id n2))
    as Hafter.
  { rewrite Ha2 in Ha1. by injection Ha1. }
  rewrite Hn1, Hn2. f_equal.
  rewrite (first_colon_decompose _ Hc1), (first_colon_decompose _ Hc2).
  congruence.
Qed.


End Proofs.

(** * Worked examples *)

(** The examples below are evaluated with the texts V8 prints. *)
#[global] Existing Instance v8.

Example scenario1 :
  processCSVData defaultHeaders [row5 "m1" "a" "r1" "b" "e1"] =
  {| Processed.nodes := [Node.mk "m1:a" "a" "m1"; Node.mk "m1:b" "b" "m1"];
     Processed.edges :=
       [Extracted.mk "m1:a" "m1:b" (JsString "r1") (JsString "e1")];
     Processed.experimentColorMap := {[ "e1" := "#FF6B6B" ]} |}.
Proof. vm_compute. reflexivity. Qed.

Example scenario2 :
  processCSVData defaultHeaders [row_without_to_node] =
  {| Processed.nodes := []; Processed.edges := [];
     Processed.experimentColorMap := ∅ |}.
Proof. vm_compute. reflexivity. Qed.

Example scenario3 :
  processCSVData defaultHeaders
    [row5 "m1" "a" "r1" "b" "e1"; row5 "m1" "a" "r2" "b" "e1"] =
  {| Processed.nodes := [Node.mk "m1:a" "a" "m1"; Node.mk "m1:b" "b" "m1"];
     Processed.edges :=
       [Extracted.mk "m1:a" "m1:b" (JsString "r1") (JsString "e1");
        Extracted.mk "m1:a" "m1:b" (JsString "r2") (JsString "e1")];
     Processed.experimentColorMap := {[ "e1" := "#FF6B6B" ]} |}.
Proof. vm_compute. reflexivity. Qed.

Example scenario4 :
  filteredGraphData graph_e1_e2 only_e1 =
    {| View.nodes := [Node.mk "m1:a" "a" "m1"; Node.mk "m1:b" "b" "m1"];
       View.links :=
         [Edge.mk "e-1" "m1:a" "m1:b" (JsString "r1") (JsString "#FF6B6B")
                  (JsString "e1")] |} ∧
  toggleExperimentVisibility "e2" only_e1 = e1_and_e2 ∧
  filteredGraphData graph_e1_e2 e1_and_e2 =
    {| View.nodes := Graph.nodes graph_e1_e2;
       View.links := Graph.edges graph_e1_e2 |}.
Proof. repeat split; vm_compute; reflexivity. Qed.

Example scenario5 :
  Processed.experimentColorMap (processCSVData defaultHeaders rows_three_tags) =
  {[ "e1" := "#FF6B6B"; "e2" := "#4ECDC4"; "undefined" := "#45B7D1" ]}.
Proof. vm_compute. reflexivity. Qed.

(** A label keeps the separators of the node name; a model that itself
    holds a separator is cut at its first one. *)
Example embedded_separators :
  Processed.nodes (processCSVData defaultHeaders [row5 "m:x" "a:b" "r" "c" "e"]) =
  [Node.mk "m:x:a:b" "x:a:b" "m"; Node.mk "m:x:c" "x:c" "m"].
Proof. vm_compute. reflexivity. Qed.

(** With V8 the model read through the prototype chain is the text of the
    function [Object]. *)
Example inherited_model_in_v8 :
  Processed.nodes (processCSVData headers_constructor [row_without_model]) =
  [Node.mk "function Object() { [native code] }:a" "a"
           "function Object() { [native code] }";
   Node.mk "function Object() { [native code] }:b" "b"
           "function Object() { [native code] }"].
Proof. vm_compute. reflexivity. Qed.

(** An experiment read from a column the file lacks and [Object.prototype]
    has is the inherited function, not the literal ["undefined"]. *)
Example inherited_tag_replaces_undefined :
  let h := {| modelHeader := "model"; fromNodeHeader := "from_node";
              relationshipHeader := "relationship"; toNodeHeader := "to_node";
              experimentHeader := "constructor" |} in
  row5 "m1" "a" "r1" "b" "e1" !! experimentHeader h = None ∧
  tags_of h [row5 "m1" "a" "r1" "b" "e1"] = [JsMember "constructor"] ∧
  Processed.experimentColorMap (processCSVData h [row5 "m1" "a" "r1" "b" "e1"]) =
    {[ "function Object() { [native code] }" := "#FF6B6B" ]}.
Proof. cbv zeta. repeat split; vm_compute; reflexivity. Qed.

(** A key the selection lacks and [Object.prototype] has is switched off
    by its first toggle, not on. *)
Example toggle_inherited_key :
  toggleExperimentVisibility "constructor" ∅ = {[ "constructor" := false ]} ∧
  toggleExperimentVisibility "e1" ∅ = {[ "e1" := true ]}.
Proof. split; vm_compute; reflexivity. Qed.

(** The length of a text is counted in UTF-16 units: two for U+1F600
    (four bytes in UTF-8), one for U+00E9 (two bytes). *)
Example js_length_units :
  js_length (String "240" (String "159" (String "152" (String "128" ""))))
    = 2%nat ∧
  js_length (String "195" (String "169" "")) = 1%nat ∧
  js_length "model" = 5%nat.
Proof. repeat split; vm_compute; reflexivity. Qed.

Lemma graph_e1_e2_closed : closed_graph graph_e1_e2.
Proof.
  unfold closed_graph, graph_e1_e2. cbn.
  repeat (apply Forall_cons; split; [split |]); try apply Forall_nil_2;
    apply (bool_decide_unpack _); vm_compute; exact I.
Defined.

Lemma defaultHeaders_plain : plain_headers defaultHeaders.
Proof.
  unfold plain_headers. apply (bool_decide_unpack _). vm_compute. exact I.
Defined.

Lemma ui_reachable_demo :
  ui_reachable
    (handleVisualize fetch_ok parse_clean uuid_demo defaultHeaders demo_url
                     initialState).1.
Proof. apply ui_load, ui_initial. Defined.

Lemma ui_reachable_pending_demo : ui_reachable (pending loaded_demo).
Proof.
  apply (ui_pending demo_url).
  - apply (ui_load fetch_ok parse_clean uuid_demo defaultHeaders demo_url
                   initialState), ui_initial.
  - vm_compute. reflexivity.
Defined.

(** ** The claims at concrete inputs *)

Example invalid_source_keeps_state :
  handleVisualize fetch_ok parse_clean uuid_demo defaultHeaders
                  "https://example.org/graph.txt" loaded_demo =
  (loaded_demo, [AlertInvalidUrl]) ∧
  handleVisualize fetch_ok parse_clean uuid_demo defaultHeaders "" loaded_demo =
  (loaded_demo, [AlertInvalidUrl]).
Proof. split; reflexivity. Qed.

Lemma C1_load_failure_clears_state_witness :
  (valid_source demo_url ∧ load_fails fetch_down parse_clean demo_url ∧
   fullGraphData
     (handleVisualize fetch_down parse_clean uuid_demo defaultHeaders
                      demo_url loaded_demo).1 = Graph.empty) ∧
  (load_fails fetch_ok parse_broken demo_url ∧
   fullGraphData
     (handleVisualize fetch_ok parse_broken uuid_demo defaultHeaders
                      demo_url loaded_demo).1 = Graph.empty).
Proof.
  assert (valid_source demo_url) as Hurl by (vm_compute; reflexivity).
  assert (load_fails fetch_down parse_clean demo_url) as Hdown
    by (left; reflexivity).
  assert (load_fails fetch_ok parse_broken demo_url) as Hbroken
    by (right; eexists; split; [reflexivity | discriminate]).
  split.
  - split; [exact Hurl |]. split; [exact Hdown |].
    apply (C1_load_failure_clears_state fetch_down parse_clean uuid_demo
             defaultHeaders demo_url loaded_demo Hurl Hdown).
  - split; [exact Hbroken |].
    apply (C1_load_failure_clears_state fetch_ok parse_broken uuid_demo
             defaultHeaders demo_url loaded_demo Hurl Hbroken).
Defined.

(** C1, as the specification words it, fails: with a graph on display, a
    load whose fetch is rejected ends with an empty full graph, an empty
    colour map and an empty selection, none of them what it was before. *)
Lemma C1_counterexample :
  valid_source demo_url ∧
  load_fails fetch_down parse_clean demo_url ∧
  Graph.nodes (fullGraphData loaded_demo) ≠ [] ∧
  fullGraphData
    (handleVisualize fetch_down parse_clean uuid_demo defaultHeaders
                     demo_url loaded_demo).1 ≠ fullGraphData loaded_demo ∧
  experimentColors
    (handleVisualize fetch_down parse_clean uuid_demo defaultHeaders
                     demo_url loaded_demo).1 ≠ experimentColors loaded_demo ∧
  visibleExperiments
    (handleVisualize fetch_down parse_clean uuid_demo defaultHeaders
                     demo_url loaded_demo).1 ≠ visibleExperiments loaded_demo.
Proof.
  split; [vm_compute; reflexivity |].
  split; [left; reflexivity |].
  repeat split; vm_compute; discriminate.
Qed.

Lemma C4_edge_filter_witness :
  closed_graph graph_e1_e2 ∧
  View.links (filteredGraphData graph_e1_e2 only_e1) =
    [Edge.mk "e-1" "m1:a" "m1:b" (JsString "r1") (JsString "#FF6B6B")
             (JsString "e1")].
Proof.
  split; [exact graph_e1_e2_closed |].
  rewrite (proj1 (C4_edge_filter graph_e1_e2 only_e1 graph_e1_e2_closed)).
  vm_compute. reflexivity.
Defined.

Lemma C7_filter_monotone_witness :
  (∀ k, only_e1 !! k = Some true → e1_and_e2 !! k = Some true) ∧
  View.links (filteredGraphData graph_e1_e2 only_e1) `sublist_of`
    View.links (filteredGraphData graph_e1_e2 e1_and_e2) ∧
  View.nodes (filteredGraphData graph_e1_e2 only_e1) `sublist_of`
    View.nodes (filteredGraphData graph_e1_e2 e1_and_e2).
Proof.
  assert (∀ k, only_e1 !! k = Some true → e1_and_e2 !! k = Some true) as Hsup.
  { intros k. unfold only_e1, e1_and_e2.
    destruct (decide (k = "e1")) as [-> | Hk1]; [reflexivity |].
    destruct (decide (k = "e2")) as [-> | Hk2]; [reflexivity |].
    rewrite !lookup_insert_ne, !lookup_singleton_ne by done. done. }
  split; [exact Hsup |].
  apply (C7_filter_monotone graph_e1_e2 e1_and_e2 only_e1 Hsup).
Defined.

(** ** The further properties at concrete inputs *)

Lemma X1_rejected_rows_are_ignored_witness :
  processCSVData defaultHeaders
    [row_without_to_node; row5 "" "a" "r" "b" "e"; row5 "m" "a" "" "b" "e"] =
  empty_processed.
Proof.
  apply (proj2 (X1_rejected_rows_are_ignored defaultHeaders
                  [row_without_to_node; row5 "" "a" "r" "b" "e";
                   row5 "m" "a" "" "b" "e"])).
  repeat (apply Forall_cons; split; [vm_compute; discriminate |]).
  apply Forall_nil_2.
Defined.

Lemma X3_fresh_view_is_full_witness :
  filteredGraphData (fullGraphData loaded_demo) (visibleExperiments loaded_demo) =
  {| View.nodes := Graph.nodes (fullGraphData loaded_demo);
     View.links := Graph.edges (fullGraphData loaded_demo) |}.
Proof.
  apply (proj2 (proj2 (proj2 (X3_fresh_view_is_full uuid_demo defaultHeaders
                                rows_three_tags initialState)))).
  apply (bool_decide_unpack _). vm_compute. exact I.
Defined.

Lemma X5_color_round_robin_witness :
  Processed.experimentColorMap (processCSVData defaultHeaders rows_nine_tags)
    !! "e1" =
  Processed.experimentColorMap (processCSVData defaultHeaders rows_nine_tags)
    !! "e9".
Proof.
  apply (proj2 (proj2 (X5_color_round_robin defaultHeaders rows_nine_tags
                         0 "e1" 8 "e9"
                         ltac:(apply (bool_decide_unpack _); vm_compute; exact I)
                         ltac:(apply (bool_decide_unpack _); vm_compute; exact I)
                         ltac:(apply (bool_decide_unpack _); vm_compute; exact I)))).
  vm_compute. reflexivity.
Defined.

Lemma X6_row_normalization_plain_headers_witness :
  (∀ before after,
     processCSVData defaultHeaders (before ++ row_without_to_node :: after) =
     processCSVData defaultHeaders (before ++ after)) ∧
  (∃ tag, tag_of (Some "") tag ∧
     ∀ before after,
       Processed.edges
         (processCSVData defaultHeaders
            (before ++ row5 "m1" "a" "r1" "b" "" :: after)) =
       Processed.edges (processCSVData defaultHeaders before) ++
       [Extracted.mk "m1:a" "m1:b" (JsString "r1") (JsString tag)] ++
       Processed.edges (processCSVData defaultHeaders after)).
Proof.
  split.
  - apply (proj1 (X6_row_normalization_plain_headers defaultHeaders
                    row_without_to_node defaultHeaders_plain)).
    right. right. left. left. reflexivity.
  - apply (proj2 (X6_row_normalization_plain_headers defaultHeaders
                    (row5 "m1" "a" "r1" "b" "") defaultHeaders_plain)
             "m1" "a" "b" "r1"); (reflexivity || discriminate).
Defined.


(** When the experiment is read from a column named like a member of
    [Object.prototype], more rows can change a colour already given: the
    inherited function and a cell holding its text are two tags with one
    key, and the second assignment overwrites the first. *)
Example inherited_tag_is_recoloured :
  let h := {| modelHeader := "model"; fromNodeHeader := "from_node";
              relationshipHeader := "relationship"; toNodeHeader := "to_node";
              experimentHeader := "toString" |} in
  let short : Row :=
    list_to_map [("model", "m"); ("from_node", "a"); ("relationship", "r");
                 ("to_node", "b")] in
  let long : Row :=
    <["toString" := "function toString() { [native code] }"]> short in
  Processed.experimentColorMap (processCSVData h [short]) =
    {[ "function toString() { [native code] }" := "#FF6B6B" ]} ∧
  Processed.experimentColorMap (processCSVData h ([short] ++ [long])) =
    {[ "function toString() { [native code] }" := "#4ECDC4" ]} ∧
  ¬ (Processed.experimentColorMap (processCSVData h [short]) ⊆
     Processed.experimentColorMap (processCSVData h ([short] ++ [long]))).
Proof.
  cbv zeta.
  match goal with
  | |- ?m1 = ?x ∧ ?m2 = ?y ∧ _ =>
      assert (m1 = x) as H1 by (vm_compute; reflexivity);
      assert (m2 = y) as H2 by (vm_compute; reflexivity)
  end.
  split_and!; [exact H1 | exact H2 |].
  rewrite H1, H2, map_subseteq_spec. intros Hsub.
  assert (({[ "function toString() { [native code] }" := "#4ECDC4" ]}
             : gmap string string)
            !! "function toString() { [native code] }" = Some "#FF6B6B")
    as Hcol by (apply Hsub; vm_compute; reflexivity).
  vm_compute in Hcol. discriminate.
Qed.



(** Without the condition on the model the ids collide: model ["a:b"] with
    node ["c"] and model ["a"] with node ["b:c"] are one node. *)
Example colliding_ids :
  Processed.nodes (processCSVData defaultHeaders
    [row5 "a:b" "c" "r" "x" "e"; row5 "a" "b:c" "r" "y" "e"]) =
  [Node.mk "a:b:c" "b:c" "a"; Node.mk "a:b:x" "b:x" "a"; Node.mk "a:y" "y" "a"].
Proof. vm_compute. reflexivity. Qed.

(** Equal ids give equal node names as texts, not equal cells: when the
    node is read from a column named like a member of [Object.prototype], a
    row without the cell and a row whose cell is the text of the inherited
    function give one node. *)
Example inherited_node_name_collides :
  let h := {| modelHeader := "model"; fromNodeHeader := "toString";
              relationshipHeader := "relationship"; toNodeHeader := "to_node";
              experimentHeader := "experiment" |} in
  let short : Row :=
    list_to_map [("model", "m"); ("relationship", "r"); ("to_node", "b")] in
  let long : Row :=
    <["toString" := "function toString() { [native code] }"]> short in
  Extracted.source <$> candidate h short =
    Some "m:function toString() { [native code] }" ∧
  Extracted.source <$> candidate h long =
    Some "m:function toString() { [native code] }" ∧
  short !! fromNodeHeader h ≠ long !! fromNodeHeader h.
Proof. cbv zeta. split_and!; vm_compute; (reflexivity || discriminate). Qed.

Example query_string_is_turned_away :
  ¬ valid_source "https://example.org/graph.csv?rev=2" ∧ valid_source ".csv".
Proof. split; vm_compute; [discriminate | reflexivity]. Qed.

Lemma X11_started_load_overwrites_witness :
  handleVisualize fetch_ok parse_clean uuid_demo defaultHeaders demo_url
                  initialState =
  handleVisualize fetch_ok parse_clean uuid_demo defaultHeaders demo_url
                  loaded_demo.
Proof.
  apply (X11_started_load_overwrites fetch_ok parse_clean uuid_demo
           defaultHeaders demo_url initialState loaded_demo).
  vm_compute. reflexivity.
Defined.

Lemma X13_loading_flag_cleared_witness :
  isLoading (handleVisualize fetch_down parse_broken uuid_demo defaultHeaders
                             demo_url (pending loaded_demo)).1 = false.
Proof.
  apply (X13_loading_flag_cleared fetch_down parse_broken uuid_demo
           defaultHeaders demo_url (pending loaded_demo)).
  vm_compute. reflexivity.
Defined.

Lemma X15_edge_ids_distinct_witness :
  NoDup (Edge.id <$> Graph.edges (fullGraphData
    (complete_ok uuid_tally defaultHeaders
       [row5 "m" "a" "r" "b" "e"; row5 "m" "a" "r" "b" "e"] initialState))).
Proof.
  apply (X15_edge_ids_distinct uuid_tally defaultHeaders
           [row5 "m" "a" "r" "b" "e"; row5 "m" "a" "r" "b" "e"] initialState).
  exact uuid_tally_inj.
Defined.

Lemma X16_graph_sound_in_every_state_witness :
  closed_graph (fullGraphData
    (handleVisualize fetch_ok parse_clean uuid_demo defaultHeaders demo_url
                     initialState).1) ∧
  (isLoading (pending loaded_demo) = true →
   fullGraphData (pending loaded_demo) = Graph.empty ∧
   experimentColors (pending loaded_demo) = ∅ ∧
   visibleExperiments (pending loaded_demo) = ∅).
Proof.
  split.
  - exact (proj1 (X16_graph_sound_in_every_state _ ui_reachable_demo)).
  - exact (proj2 (proj2 (proj2
             (X16_graph_sound_in_every_state _ ui_reachable_pending_demo)))).
Defined.

Lemma X17_legend_selection_graph_agree_witness :
  Forall (λ e, Edge.color e =
               js_get JsString
                 (experimentColors
                    (handleVisualize fetch_ok parse_clean uuid_demo
                                     defaultHeaders demo_url initialState).1)
                 (js_text (Edge.experiment e)))
         (Graph.edges (fullGraphData
            (handleVisualize fetch_ok parse_clean uuid_demo defaultHeaders
                             demo_url initialState).1)).
Proof.
  exact (proj2 (proj2 (X17_legend_selection_graph_agree _ ui_reachable_demo))).
Defined.

Lemma X19_view_has_no_dangling_links_witness :
  Forall (λ e, Edge.source e ∈
                 Node.id <$> View.nodes (filteredGraphData graph_e1_e2 only_e1) ∧
               Edge.target e ∈
                 Node.id <$> View.nodes (filteredGraphData graph_e1_e2 only_e1))
         (View.links (filteredGraphData graph_e1_e2 only_e1)).
Proof.
  apply (X19_view_has_no_dangling_links graph_e1_e2 only_e1).
  exact graph_e1_e2_closed.
Defined.

Lemma X20_filter_idempotent_witness :
  filteredGraphData (view_graph (filteredGraphData graph_e1_e2 only_e1)) only_e1 =
  filteredGraphData graph_e1_e2 only_e1.
Proof.
  apply (X20_filter_idempotent graph_e1_e2 only_e1 graph_e1_e2_closed).
Defined.

Lemma X21_empty_view_witness :
  View.nodes (filteredGraphData graph_e1_e2 ∅) = [].
Proof.
  apply (proj1 (X21_empty_view graph_e1_e2 ∅ graph_e1_e2_closed)).
  repeat (apply Forall_cons; split; [vm_compute; discriminate |]).
  apply Forall_nil_2.
Defined.

Lemma X22_selection_relevance_witness :
  filteredGraphData graph_e1_e2 only_e1 =
  filteredGraphData graph_e1_e2 (<["e3" := true]> only_e1).
Proof.
  apply (X22_selection_relevance graph_e1_e2 only_e1 (<["e3" := true]> only_e1)).
  repeat (apply Forall_cons; split; [vm_compute; reflexivity |]).
  apply Forall_nil_2.
Defined.

Lemma X24_toggle_flips_one_experiment_witness :
  View.links (filteredGraphData graph_e1_e2
                (toggleExperimentVisibility "e2" only_e1)) =
  Graph.edges graph_e1_e2 ∧
  Forall (λ e,
            if decide (js_text (Edge.experiment e) = "e2")
            then e ∈ View.links (filteredGraphData graph_e1_e2
                                   (toggleExperimentVisibility "e2" only_e1))
                 ↔ e ∉ View.links (filteredGraphData graph_e1_e2 only_e1)
            else e ∈ View.links (filteredGraphData graph_e1_e2
                                   (toggleExperimentVisibility "e2" only_e1))
                 ↔ e ∈ View.links (filteredGraphData graph_e1_e2 only_e1))
         (Graph.edges graph_e1_e2).
Proof.
  split; [vm_compute; reflexivity |].
  apply (X24_toggle_flips_one_experiment graph_e1_e2 "e2" only_e1
           graph_e1_e2_closed).
  intros _. apply (bool_decide_unpack _). vm_compute. exact I.
Defined.

(** Without the condition on the key the toggle does nothing to the view:
    the first toggle of an absent key that [Object.prototype] has stores
    [false]. *)
Example toggle_inherited_key_keeps_view :
  let g := {| Graph.nodes := [Node.mk "m:a" "a" "m"; Node.mk "m:b" "b" "m"];
              Graph.edges :=
                [Edge.mk "e-1" "m:a" "m:b" (JsString "r") JsUndefined
                         (JsString "constructor")] |} in
  View.links (filteredGraphData g ∅) = [] ∧
  View.links (filteredGraphData g (toggleExperimentVisibility "constructor" ∅))
    = [].
Proof. cbv zeta. split; vm_compute; reflexivity. Qed.

Lemma X26_nodeLabel_injective_witness :
  Node.mk "m1:a" "a" "m1" = make_node "m1:a".
Proof.
  apply (X26_nodeLabel_injective defaultHeaders [row5 "m1" "a" "r1" "b" "e1"]).
  - left.
  - left.
  - reflexivity.
Defined.

Lemma X28_page_in_every_state_witness :
  showsLegend (pending loaded_demo)
  && (showsPrompt (pending loaded_demo) || showsProgress (pending loaded_demo))
  = false.
Proof.
  exact (proj1 (X28_page_in_every_state _ ui_reachable_pending_demo)).
Defined.

(** While a load waits the page shows the progress bar alone: no legend, no
    prompt, no notice, no graph. *)
Example page_while_loading :
  showsProgress (pending loaded_demo) = true ∧
  showsLegend (pending loaded_demo) = false ∧
  showsPrompt (pending loaded_demo) = false ∧
  showsFilteredOut (pending loaded_demo) = false ∧
  showsGraph (pending loaded_demo) = false.
Proof. repeat split; vm_compute; reflexivity. Qed.

Lemma X30_chip_label_is_key_witness :
  map_Forall (λ k _, k ≠ "" ∧ chipLabel k = k)
    (experimentColors
       (handleVisualize fetch_ok parse_clean uuid_demo defaultHeaders demo_url
                        initialState).1).
Proof.
  apply (X30_chip_label_is_key _ ui_reachable_demo).
Defined.
